(** * The CertificateRequestPolicy validation webhook

    A shallow embedding of [pkg/internal/webhook/validator.go]: the
    [validator] struct with its late-bound decoder, the admission handler
    [Handle], the validation routine [certificateRequestPolicy], the
    decoder injection [InjectDecoder] and the readiness probe [check].

    Conventions.
    - A Go [string] is a [string]; Go compares strings bytewise, which is
      [String.compare].
    - A Go [map[string]T] is a [gmap string T].  The order in which [range]
      yields the keys of a map is unspecified; it is supplied by an oracle
      [rangeKeys] and the theorems hold for every oracle that enumerates
      the keys.
    - A Go [error] is its message ([option string], [None] for [nil]).
    - A pointer that may be [nil] is an [option].
    - The object behind the [policy] pointer and the state reachable by the
      registered webhooks are threaded explicitly ([store]). *)

From Stdlib Require Import ZArith.
From stdpp Require Import gmap strings list fin_maps sorting.

(** ** Bytewise order on strings *)

Definition string_le (s1 s2 : string) : Prop := String.leb s1 s2 = true.

Global Instance string_le_dec (s1 s2 : string) : Decision (string_le s1 s2).
Proof. unfold string_le. apply _. Defined.

(** ** Package [sort] *)

Module sort.

(** [sort.Strings] arranges a slice in increasing order.  The algorithm Go
    uses is not stable, but on strings the increasing arrangement of a
    slice is unique ([Strings_unique] below), so any correct sorting
    function is a model of it. *)
Definition Strings (x : list string) : list string :=
  merge_sort string_le x.

End sort.

(** ** Package [net/http] *)

Module http.

Definition StatusBadRequest : Z := 400.
Definition StatusInternalServerError : Z := 500.

End http.

(** ** Package [k8s.io/apimachinery/pkg/util/validation/field]

    The three constructors the validator calls, as data: what matters to
    the validator is the kind of the error, the path it is attached to, the
    offending value and the detail. *)

Module field.

Inductive ErrorType : Set :=
| ErrorTypeNotFound
| ErrorTypeRequired
| ErrorTypeDuplicate
| ErrorTypeInvalid
| ErrorTypeNotSupported
| ErrorTypeForbidden
| ErrorTypeTooLong
| ErrorTypeTooMany
| ErrorTypeInternal.

(** The [interface{}] carried as [BadValue]. *)
Inductive Value : Type :=
| VString (s : string)
| VStringMap (m : gmap string string).

(** The detail of an error: free text, or for a not-supported error the
    values that would have been accepted. *)
Inductive Detail : Type :=
| Text (s : string)
| SupportedValues (validValues : list string).

Record Error : Type := mkError {
  ErrType : ErrorType;
  Field : string;
  BadValue : Value;
  ErrDetail : Detail
}.

(** [ErrorList] is a slice of errors. *)
Abbreviation ErrorList := (list Error).

(** A path is the list of its segments, root first. *)
Definition Path : Type := list string.

Definition NewPath (name : string) : Path := [name].

Definition Child (p : Path) (names : list string) : Path := p ++ names.

Fixpoint PathString (p : Path) : string :=
  match p with
  | [] => ""
  | [name] => name
  | name :: rest => name +:+ "." +:+ PathString rest
  end.

Definition NotSupported (p : Path) (value : string) (validValues : list string) : Error :=
  mkError ErrorTypeNotSupported (PathString p) (VString value) (SupportedValues validValues).

Definition Required (p : Path) (detail : string) : Error :=
  mkError ErrorTypeRequired (PathString p) (VString "") (Text detail).

Definition Invalid (p : Path) (value : Value) (detail : string) : Error :=
  mkError ErrorTypeInvalid (PathString p) value (Text detail).

Global Instance ErrorType_eq_dec : EqDecision ErrorType.
Proof. solve_decision. Defined.

Global Instance Value_eq_dec : EqDecision Value.
Proof. solve_decision. Defined.

Global Instance Detail_eq_dec : EqDecision Detail.
Proof. solve_decision. Defined.

Global Instance Error_eq_dec : EqDecision Error.
Proof. solve_decision. Defined.

End field.

(** ** Package [k8s.io/apimachinery/pkg/apis/meta/v1] *)

Module metav1.

Record GroupVersionKind : Type := mkGVK {
  Group : string;
  Version : string;
  Kind : string
}.

Global Instance GroupVersionKind_eq_dec : EqDecision GroupVersionKind.
Proof. solve_decision. Defined.

End metav1.

(** ** Package [pkg/apis/policy/v1alpha1] *)

Module policyapi.

(** Modelled from the spec: the type declarations of the policy resource
    live in another package of the repository.  The resource carries a
    mapping from plugin name to plugin configuration and a selector with
    two optional sub-selectors, an issuer reference matcher and a namespace
    matcher; the namespace matcher carries a mapping of label key to
    value. *)
Record CertificateRequestPolicyPluginData : Type := mkPluginData {
  Values : gmap string string
}.

Record CertificateRequestPolicySelectorIssuerRef : Type := mkIssuerRef {
  IssuerName : option string;
  IssuerKind : option string;
  IssuerGroup : option string
}.

Record CertificateRequestPolicySelectorNamespace : Type := mkNamespace {
  MatchNames : list string;
  MatchLabels : gmap string string
}.

Record CertificateRequestPolicySelector : Type := mkSelector {
  IssuerRef : option CertificateRequestPolicySelectorIssuerRef;
  Namespace : option CertificateRequestPolicySelectorNamespace
}.

Record CertificateRequestPolicySpec : Type := mkSpec {
  Plugins : gmap string CertificateRequestPolicyPluginData;
  Selector : CertificateRequestPolicySelector
}.

Record CertificateRequestPolicy : Type := mkPolicy {
  Spec : CertificateRequestPolicySpec
}.

End policyapi.

(** ** Package [sigs.k8s.io/controller-runtime/pkg/webhook/admission] *)

Module admission.

Record Request : Type := mkRequest {
  Name : string;
  RequestKind : option metav1.GroupVersionKind;
  Raw : string
}.

(** A response is built by one of three constructors. *)
Inductive Response : Type :=
| Allowed (message : string)
| Denied (message : string)
| Errored (code : Z) (err : string).

End admission.

(** ** What a Go call does: it returns, or it panics. *)

Inductive go_result (A : Type) : Type :=
| Returns (a : A)
| Panics.

Arguments Returns {A} a.
Arguments Panics {A}.

(** ** Package [pkg/approver] *)

Module approver.

(** Modelled from the spec: the response of a webhook is declared in
    another package of the repository; it is
    [{allowed: bool, errors: FieldErrorList}]. *)
Record WebhookValidationResponse : Type := mkResponse {
  Allowed : bool;
  Errors : field.ErrorList
}.

End approver.

(** ** What the validator is linked against

    The collaborators of the validator that are not part of the file: the
    decoder of the controller runtime, the label selector compiler, the
    rendering of an error list, the name of the API group, the state the
    webhooks can reach, and the order in which the Go runtime walks a
    map. *)

Class Platform : Type := {
  (** [context.Context] *)
  Ctx : Type;
  (** the cluster, the network: whatever a webhook may read or change *)
  World : Type;
  (** [admission.Decoder] *)
  Decoder : Type;
  (** the [Decode] method of [admission.Decoder], called on a receiver
      that may be [nil]: it fills the object, returns an error, or
      panics *)
  Decode : option Decoder → admission.Request →
           go_result (policyapi.CertificateRequestPolicy + string);
  (** [metav1.LabelSelectorAsSelector] on [MatchLabels]: the error, if any *)
  LabelSelectorAsSelector : gmap string string → option string;
  (** [el.ToAggregate().Error()] *)
  ToAggregateError : field.ErrorList → string;
  (** [policy.GroupName] *)
  GroupName : string;
  (** the keys of the plugin map, in the order [range] yields them *)
  rangeKeys : gmap string policyapi.CertificateRequestPolicyPluginData → list string
}.

(** An oracle for [range] is faithful when it yields every key once. *)
Definition faithful_range `{P : Platform} : Prop :=
  ∀ m, rangeKeys m ≡ₚ (map_to_list m).*1.

Section validator.

Context `{P : Platform}.

Import policyapi.

(** The object behind the [policy] pointer, which every webhook receives
    and may write through, together with the outside world. *)
Record store : Type := mkStore {
  obj : CertificateRequestPolicy;
  ext : World
}.

(** Computations that read and change the store. *)
Definition M (A : Type) : Type := store → A * store.

Definition ret {A : Type} (a : A) : M A := λ s, (a, s).

Definition bind {A B : Type} (m : M A) (k : A → M B) : M B :=
  λ s, let '(a, s') := m s in k a s'.

(** [approver.Webhook]: the interface has one method the validator calls.
    A call is taken to return; a webhook that panics is not modelled. *)
Record Webhook : Type := mkWebhook {
  Validate : Ctx → M (approver.WebhookValidationResponse * option string)
}.

(** [validator]; the lock, the logger and the lister carry no data that
    the functions below compute with. *)
Record validator : Type := mkValidator {
  registeredPlugins : list string;
  webhooks : list Webhook;
  decoder : option Decoder
}.

(** The inner loop of lines 104-110: is [name] one of the known names? *)
Fixpoint found (name : string) (registeredPlugins : list string) : bool :=
  match registeredPlugins with
  | [] => false
  | known :: rest => if decide (name = known) then true else found name rest
  end.

(** Lines 102-115: the declared names that are not registered, in the
    order in which [range] met them. *)
Definition unrecognisedNames (v : validator) (policy : CertificateRequestPolicy) : list string :=
  foldl (λ names name,
           if found name (registeredPlugins v) then names else names ++ [name])
        [] (rangeKeys (Plugins (Spec policy))).

(** Lines 135-145: the webhooks in order; the first error ends the loop and
    nothing of [el] is returned. *)
Fixpoint validateWebhooks (ws : list Webhook) (ctx : Ctx) (el : field.ErrorList)
  : M (field.ErrorList * option string) :=
  match ws with
  | [] => ret (el, None)
  | webhook :: rest =>
      bind (Validate webhook ctx) (λ '(response, err),
        match err with
        | Some e => ret ([], Some e)
        | None =>
            let el := if negb (approver.Allowed response)
                      then el ++ approver.Errors response else el in
            validateWebhooks rest ctx el
        end)
  end.

(** Lines 96-133: the checks that need no webhook, accumulated in [el]. *)
Definition baseChecks (v : validator) (policy : CertificateRequestPolicy) : field.ErrorList :=
  let el : field.ErrorList := [] in
  let fldPath := field.NewPath "spec" in
  let names := unrecognisedNames v policy in
  let el :=
    if 0 <? length names then
      foldl (λ el name,
               el ++ [field.NotSupported (field.Child fldPath ["plugins"])
                        name (registeredPlugins v)])
            el (sort.Strings names)
    else el in
  let el :=
    match IssuerRef (Selector (Spec policy)), Namespace (Selector (Spec policy)) with
    | None, None =>
        el ++ [field.Required (field.Child fldPath ["selector"])
                 "one of issuerRef or namespace must be defined, hint: `{}` on either matches everything"]
    | _, _ => el
    end in
  let el :=
    match Namespace (Selector (Spec policy)) with
    | Some nsSel =>
        if 0 <? size (MatchLabels nsSel) then
          match LabelSelectorAsSelector (MatchLabels nsSel) with
          | Some err =>
              el ++ [field.Invalid
                       (field.Child fldPath ["selector"; "namespace"; "matchLabels"])
                       (field.VStringMap (MatchLabels nsSel)) err]
          | None => el
          end
        else el
    | None => el
    end in
  el.

(** [certificateRequestPolicy]: the base checks on the object behind the
    pointer, then the webhooks.  The errors are values: the invalid-field
    error holds the labels as they were when it was built, and a webhook
    that writes into that very map behind the pointer is not followed
    into the error. *)
Definition certificateRequestPolicy (v : validator) (ctx : Ctx)
  : M (field.ErrorList * option string) := λ s,
  validateWebhooks (webhooks v) ctx (baseChecks v (obj s)) s.

(** The kind [Handle] recognises. *)
Definition policyKind : metav1.GroupVersionKind :=
  metav1.mkGVK GroupName "v1alpha1" "CertificateRequestPolicy".

Definition Handle (v : validator) (ctx : Ctx) (req : admission.Request) (w : World)
  : go_result (admission.Response * World) :=
  match admission.RequestKind req with
  | None =>
      Returns (admission.Errored http.StatusBadRequest "no resource kind sent in request", w)
  | Some kind =>
      if decide (kind = policyKind) then
        match Decode (decoder v) req with
        | Panics => Panics
        | Returns (inr err) =>
            Returns (admission.Errored http.StatusBadRequest err, w)
        | Returns (inl policy) =>
            let '((el, err), s) := certificateRequestPolicy v ctx (mkStore policy w) in
            match err with
            | Some e =>
                Returns (admission.Errored http.StatusInternalServerError e, ext s)
            | None =>
                if 0 <? length el then
                  Returns (admission.Denied (ToAggregateError el), ext s)
                else
                  Returns (admission.Allowed "CertificateRequestPolicy validated", ext s)
            end
        end
      else
        Returns (admission.Denied
                   ("validation request for unrecognised resource type: "
                    +:+ metav1.Group kind +:+ "/" +:+ metav1.Version kind
                    +:+ " " +:+ metav1.Kind kind), w)
  end.

Definition InjectDecoder (v : validator) (d : option Decoder) : validator * option string :=
  (mkValidator (registeredPlugins v) (webhooks v) d, None).

Definition check (v : validator) : option string :=
  match decoder v with
  | Some _ => None
  | None => Some "not ready"
  end.

End validator.

(** ** The three base checks, as the specification words them *)

Section base_rules.

Context `{P : Platform}.

Import policyapi.

(** The declared plugin names that the registry does not hold, in
    increasing order; no oracle is involved. *)
Definition unknownNames (v : validator) (policy : CertificateRequestPolicy) : list string :=
  sort.Strings (filter (λ name, name ∉ registeredPlugins v)
                       (map_to_list (Plugins (Spec policy))).*1).

(** Check 1: one not-supported error per unknown name, each listing the
    registry. *)
Definition pluginErrors (v : validator) (policy : CertificateRequestPolicy) : field.ErrorList :=
  (λ name, field.NotSupported ["spec"; "plugins"] name (registeredPlugins v))
    <$> unknownNames v policy.

(** Check 2: a selector is required. *)
Definition selectorErrors (policy : CertificateRequestPolicy) : field.ErrorList :=
  if bool_decide (IssuerRef (Selector (Spec policy)) = None
                  ∧ Namespace (Selector (Spec policy)) = None)
  then [field.Required ["spec"; "selector"]
          "one of issuerRef or namespace must be defined, hint: `{}` on either matches everything"]
  else [].

(** Check 3: the labels of the namespace matcher must compile. *)
Definition matchLabelsErrors (policy : CertificateRequestPolicy) : field.ErrorList :=
  match Namespace (Selector (Spec policy)) with
  | Some nsSel =>
      if bool_decide (MatchLabels nsSel ≠ ∅) then
        match LabelSelectorAsSelector (MatchLabels nsSel) with
        | Some err =>
            [field.Invalid ["spec"; "selector"; "namespace"; "matchLabels"]
               (field.VStringMap (MatchLabels nsSel)) err]
        | None => []
        end
      else []
  | None => []
  end.

(** Is an error of this kind? *)
Definition has_type (t : field.ErrorType) (e : field.Error) : bool :=
  bool_decide (field.ErrType e = t).

(** One call of [Validate] by the loop of lines 135-143: the store the
    webhook was called on, what it returned, and the store it left. *)
Record call : Type := mkCall {
  storeBefore : store;
  answer : approver.WebhookValidationResponse;
  failure : option string;
  storeAfter : store
}.

(** The calls the loop makes on a run, in order: one per webhook, up to
    and including the first that returns an execution error. *)
Fixpoint calls (ws : list Webhook) (ctx : Ctx) (s : store) : list call :=
  match ws with
  | [] => []
  | webhook :: rest =>
      let '((response, err), s1) := Validate webhook ctx s in
      mkCall s response err s1
      :: match err with
         | Some _ => []
         | None => calls rest ctx s1
         end
  end.

(** The errors of the responses that deny, one response after the other. *)
Definition deniedErrors (answers : list approver.WebhookValidationResponse) : field.ErrorList :=
  mjoin (approver.Errors <$> filter (λ response, approver.Allowed response = false) answers).

End base_rules.

(** ** The life of a validator

    The operations that reach a validator once it is built.  They are
    issued one after the other; each runs until it returns, panics or
    blocks on the lock.  A call that blocks stays blocked, and a [Handle]
    that panics ends (the HTTP server recovers the panic); neither keeps
    later operations from being issued. *)

Section lifecycle.

Context `{P : Platform}.

(** Modelled from the spec: the constructor is in another file of the
    package; the decoder handle starts unset. *)
Definition newValidator (registeredPlugins : list string) (webhooks : list Webhook) : validator :=
  mkValidator registeredPlugins webhooks None.

(** The validator with the state of its [sync.RWMutex]: the read locks
    that were taken and not given back, and whether a writer is waiting
    in [Lock].  While a writer waits, [RLock] blocks. *)
Record guarded : Type := mkGuarded {
  self : validator;
  readers : nat;
  waiting : bool
}.

Definition fresh (v : validator) : guarded := mkGuarded v 0 false.

(** [InjectDecoder] with its lock (lines 151-155): [Lock] returns once no
    read lock is held; the deferred [Unlock] gives the lock back.  The
    answer is [None] when the call blocks. *)
Definition lockedInjectDecoder (g : guarded) (d : option Decoder)
  : guarded * option (option string) :=
  if waiting g then (g, None)
  else
    match readers g with
    | 0 => let '(v, err) := InjectDecoder (self g) d in (mkGuarded v 0 false, Some err)
    | S _ => (mkGuarded (self g) (readers g) true, None)
    end.

(** [check] with its lock (lines 161-168); the [RUnlock] is deferred.  The
    answer is [None] when the call blocks. *)
Definition lockedCheck (g : guarded) : option (option string) :=
  if waiting g then None else Some (check (self g)).

(** Lines 65-67 of [Handle]: [RLock], [Decode], [RUnlock].  The [RUnlock]
    is not deferred: when [Decode] panics the read lock stays held. *)
Definition lockedDecode (g : guarded) (req : admission.Request)
  : guarded * option (go_result (policyapi.CertificateRequestPolicy + string)) :=
  if waiting g then (g, None)
  else
    match Decode (decoder (self g)) req with
    | Panics => (mkGuarded (self g) (S (readers g)) false, Some Panics)
    | Returns r => (g, Some (Returns r))
    end.

Inductive op : Type :=
| OpInjectDecoder (d : option Decoder)
| OpCheck
| OpHandle (ctx : Ctx) (req : admission.Request).

(** What an operation leaves behind.  [Handle] reaches the lock only for a
    request of the recognised kind (lines 56-67), and nothing after line
    67 touches the validator. *)
Definition step (g : guarded) (o : op) : guarded :=
  match o with
  | OpInjectDecoder d => (lockedInjectDecoder g d).1
  | OpCheck => g
  | OpHandle _ req =>
      match admission.RequestKind req with
      | Some kind => if decide (kind = policyKind) then (lockedDecode g req).1 else g
      | None => g
      end
  end.

Definition run (g : guarded) (ops : list op) : guarded := foldl step g ops.



(** Is this operation an injection? *)
Definition is_injection (o : op) : Prop :=
  match o with
  | OpInjectDecoder _ => True
  | _ => False
  end.

End lifecycle.

(** ** A concrete platform, on which the model runs *)

Module sample.

Import policyapi.

(** A decoder in the manner of the controller runtime's: an empty payload
    is refused before the receiver is looked at; anything else goes
    through the receiver, which must not be [nil]. *)
Definition decode (d : option (admission.Request → CertificateRequestPolicy + string))
    (req : admission.Request) : go_result (CertificateRequestPolicy + string) :=
  if bool_decide (admission.Raw req = "") then
    Returns (inr "there is no content to decode")
  else
    match d with
    | Some f => Returns (f req)
    | None => Panics
    end.

(** Label keys must not be empty. *)
Definition labelSelector (m : gmap string string) : option string :=
  if bool_decide (is_Some (m !! "")) then Some "name part must be non-empty" else None.

Definition render (el : field.ErrorList) : string :=
  String.concat "; " (field.Field <$> el).

(** The world is the list of the webhooks that ran. *)
Definition platform : Platform := {|
  Ctx := unit;
  World := list string;
  Decoder := admission.Request → CertificateRequestPolicy + string;
  Decode := decode;
  LabelSelectorAsSelector := labelSelector;
  ToAggregateError := render;
  GroupName := "policy.cert-manager.io";
  rangeKeys := λ m, (map_to_list m).*1
|}.

(** The same platform with a runtime that walks maps the other way. *)
Definition reversed : Platform := {|
  Ctx := unit;
  World := list string;
  Decoder := admission.Request → CertificateRequestPolicy + string;
  Decode := decode;
  LabelSelectorAsSelector := labelSelector;
  ToAggregateError := render;
  GroupName := "policy.cert-manager.io";
  rangeKeys := λ m, reverse (map_to_list m).*1
|}.

(** A webhook that signs the world and answers as told. *)
Definition answering (name : string) (response : approver.WebhookValidationResponse)
    (err : option string) : @Webhook platform :=
  @mkWebhook platform
    (λ _ s, ((response, err), @mkStore platform (@obj platform s) (@ext platform s ++ [name]))).

Definition anyIssuer : CertificateRequestPolicySelectorIssuerRef :=
  mkIssuerRef None None None.

Definition issuerOnly : CertificateRequestPolicy :=
  mkPolicy (mkSpec ∅ (mkSelector (Some anyIssuer) None)).

Definition noSelector : CertificateRequestPolicy :=
  mkPolicy (mkSpec ∅ (mkSelector None None)).

Definition emptyLabelKey : CertificateRequestPolicy :=
  mkPolicy (mkSpec ∅ (mkSelector None (Some (mkNamespace [] {[ "" := "x" ]})))).

Definition pluginsBA : CertificateRequestPolicy :=
  mkPolicy (mkSpec (<["b" := mkPluginData ∅]> (<["a" := mkPluginData ∅]> ∅))
                   (mkSelector (Some anyIssuer) None)).

Definition policyRequest (raw : string) : admission.Request :=
  admission.mkRequest "policy"
    (Some (metav1.mkGVK "policy.cert-manager.io" "v1alpha1" "CertificateRequestPolicy")) raw.

Definition otherRequest : admission.Request :=
  admission.mkRequest "web" (Some (metav1.mkGVK "apps" "v1" "Deployment")) "{}".

Definition anError : field.Error :=
  field.Invalid ["spec"; "plugins"; "rego"] (field.VString "x") "cannot be parsed".

(** A decoder that reads every payload as the given policy. *)
Definition reads (policy : CertificateRequestPolicy)
  : admission.Request → CertificateRequestPolicy + string :=
  λ _, inl policy.

Definition denying : @Webhook platform :=
  answering "w0" (approver.mkResponse false [anError]) None.

Definition failing : @Webhook platform :=
  answering "w1" (approver.mkResponse true []) (Some "boom").

Definition allowing : @Webhook platform :=
  answering "w2" (approver.mkResponse true [anError]) None.

Definition denyingSilently : @Webhook platform :=
  answering "w3" (approver.mkResponse false []) None.

(** Validators on the sample platform. *)
Definition failingSecond : @validator platform :=
  @mkValidator platform [] [denying; failing; allowing] (Some (reads issuerOnly)).

Definition allowingOnly : @validator platform :=
  @mkValidator platform [] [allowing] (Some (reads issuerOnly)).

Definition quietOnly : @validator platform :=
  @mkValidator platform [] [denyingSilently; allowing] (Some (reads issuerOnly)).

Definition readingLabels : @validator platform :=
  @mkValidator platform [] [] (Some (reads emptyLabelKey)).

Definition withRegistry : @validator platform :=
  @mkValidator platform ["allowed"] [] None.

Definition withRegistryReversed : @validator reversed :=
  @mkValidator reversed ["allowed"] [] None.

Definition notSupported (name : string) : field.Error :=
  field.mkError field.ErrorTypeNotSupported "spec.plugins" (field.VString name)
    (field.SupportedValues ["allowed"]).

(** The plugins of [pluginsBA] with a configuration, and another issuer. *)
Definition pluginsBAConfigured : CertificateRequestPolicy :=
  mkPolicy (mkSpec (<["b" := mkPluginData {[ "mode" := "strict" ]}]>
                      (<["a" := mkPluginData {[ "level" := "3" ]}]> ∅))
                   (mkSelector (Some (mkIssuerRef (Some "ca") (Some "Issuer") None)) None)).

Definition denyingOnly : @validator platform :=
  @mkValidator platform [] [denying] (Some (reads issuerOnly)).

Definition denyingTwice : @validator platform :=
  @mkValidator platform [] [denying; allowing; denyingSilently; denying]
    (Some (reads noSelector)).

Definition required : field.Error :=
  field.mkError field.ErrorTypeRequired "spec.selector" (field.VString "")
    (field.Text "one of issuerRef or namespace must be defined, hint: `{}` on either matches everything").

(** A policy with the namespace sub-selector alone, whose labels compile. *)
Definition teamLabels : CertificateRequestPolicy :=
  mkPolicy (mkSpec ∅ (mkSelector None (Some (mkNamespace [] {[ "team" := "a" ]})))).

(** A webhook that denies the policies without a namespace sub-selector
    and allows the others. *)
Definition picky : @Webhook platform :=
  @mkWebhook platform
    (λ _ s, ((match Namespace (Selector (Spec (@obj platform s))) with
              | Some _ => approver.mkResponse true []
              | None => approver.mkResponse false [anError]
              end, None),
             @mkStore platform (@obj platform s) (@ext platform s ++ ["picky"]))).

Definition pickyFirst : @validator platform :=
  @mkValidator platform [] [picky; allowing] (Some (reads teamLabels)).

Definition pickyAndSilent : @validator platform :=
  @mkValidator platform [] [picky; denyingSilently; allowing] (Some (reads teamLabels)).

End sample.

(** * Properties *)

(** ** The order on strings and [sort.Strings] *)

Lemma ascii_compare_refl (a : Ascii.ascii) : Ascii.compare a a = Eq.
Proof. unfold Ascii.compare. apply N.compare_refl. Qed.

Lemma ascii_compare_lt_trans (a b c : Ascii.ascii) :
  Ascii.compare a b = Lt → Ascii.compare b c = Lt → Ascii.compare a c = Lt.
Proof.
  unfold Ascii.compare. rewrite !N.compare_lt_iff. apply N.lt_trans.
Qed.

Lemma string_compare_lt_trans (s1 s2 s3 : string) :
  String.compare s1 s2 = Lt → String.compare s2 s3 = Lt →
  String.compare s1 s3 = Lt.
Proof.
  revert s2 s3.
  induction s1 as [|a s1 IH]; intros [|b s2] [|c s3]; simpl; try congruence.
  destruct (Ascii.compare a b) eqn:Hab; try discriminate.
  - apply Ascii.compare_eq_iff in Hab as ->.
    destruct (Ascii.compare b c); try discriminate; eauto.
  - destruct (Ascii.compare b c) eqn:Hbc; try discriminate.
    + apply Ascii.compare_eq_iff in Hbc as <-. by rewrite Hab.
    + by rewrite (ascii_compare_lt_trans a b c).
Qed.

Lemma string_compare_refl (s : string) : String.compare s s = Eq.
Proof.
  induction s as [|a s IH]; simpl; [done|]. by rewrite ascii_compare_refl.
Qed.

Global Instance string_le_refl : Reflexive string_le.
Proof. intros s. unfold string_le, String.leb. by rewrite string_compare_refl. Qed.

Global Instance string_le_trans : Transitive string_le.
Proof.
  intros s1 s2 s3. unfold string_le, String.leb.
  destruct (String.compare s1 s2) eqn:H12; try discriminate; intros _.
  - apply String.compare_eq_iff in H12 as ->. done.
  - destruct (String.compare s2 s3) eqn:H23; try discriminate; intros _.
    + apply String.compare_eq_iff in H23 as <-. by rewrite H12.
    + by rewrite (string_compare_lt_trans s1 s2 s3).
Qed.

Global Instance string_le_antisym : AntiSymm (=) string_le.
Proof. intros s1 s2. apply String.leb_antisym. Qed.

Global Instance string_le_total : Total string_le.
Proof. intros s1 s2. apply String.leb_total. Qed.

Lemma Strings_sorted (x : list string) : Sorted string_le (sort.Strings x).
Proof. apply (Sorted_merge_sort string_le). Qed.

Lemma Strings_perm (x : list string) : sort.Strings x ≡ₚ x.
Proof. apply (merge_sort_Permutation string_le). Qed.

Lemma Strings_unique (x y : list string) :
  Sorted string_le y → y ≡ₚ x → y = sort.Strings x.
Proof.
  intros Hs Hp. apply (Sorted_unique string_le); [done|apply Strings_sorted|].
  by rewrite Hp, Strings_perm.
Qed.

Lemma Strings_proper (x y : list string) :
  x ≡ₚ y → sort.Strings x = sort.Strings y.
Proof.
  intros Hp. apply Strings_unique; [apply Strings_sorted|].
  by rewrite Strings_perm.
Qed.

(** ** The base checks *)

Section base_checks_properties.

Context `{P : Platform}.

Import policyapi.

Lemma found_elem_of (name : string) (known : list string) :
  found name known = true ↔ name ∈ known.
Proof.
  induction known as [|k known IH]; simpl.
  - split; [discriminate|]. by intros ?%elem_of_nil.
  - rewrite elem_of_cons. case_decide as Hk.
    + split; [by left|done].
    + rewrite IH. split; [by right|]. by intros [?|?].
Qed.

Lemma unrecognised_foldl (known keys acc : list string) :
  foldl (λ names name, if found name known then names else names ++ [name]) acc keys
  = acc ++ filter (λ name, name ∉ known) keys.
Proof.
  revert acc. induction keys as [|k keys IH]; intros acc; simpl.
  - by rewrite app_nil_r.
  - rewrite IH. destruct (found k known) eqn:Hk.
    + apply found_elem_of in Hk. by rewrite filter_cons_False by naive_solver.
    + assert (k ∉ known) by (rewrite <-found_elem_of; congruence).
      rewrite filter_cons_True by done. by rewrite <-app_assoc.
Qed.

Lemma unrecognisedNames_filter (v : validator) (policy : CertificateRequestPolicy) :
  unrecognisedNames v policy
  = filter (λ name, name ∉ registeredPlugins v) (rangeKeys (Plugins (Spec policy))).
Proof. unfold unrecognisedNames. by rewrite unrecognised_foldl. Qed.

Lemma append_each_foldl {A B : Type} (f : A → B) (names : list A) (el : list B) :
  foldl (λ el name, el ++ [f name]) el names = el ++ (f <$> names).
Proof.
  revert el. induction names as [|n names IH]; intros el; simpl.
  - by rewrite app_nil_r.
  - by rewrite IH, <-app_assoc.
Qed.

Lemma Strings_nil : sort.Strings [] = [].
Proof. reflexivity. Qed.

Lemma size_positive_non_empty (m : gmap string string) :
  (0 <? size m) = bool_decide (m ≠ ∅).
Proof.
  destruct (decide (m = ∅)) as [->|Hne].
  - by rewrite map_size_empty, bool_decide_eq_false_2 by naive_solver.
  - rewrite bool_decide_eq_true_2 by done.
    apply Nat.ltb_lt. apply map_size_non_empty_iff in Hne. lia.
Qed.

(** The base checks are three checks in a row, none of which looks at what
    the others found. *)
Lemma baseChecks_split (v : validator) (policy : CertificateRequestPolicy) :
  baseChecks v policy
  = ((λ name, field.NotSupported ["spec"; "plugins"] name (registeredPlugins v))
       <$> sort.Strings (unrecognisedNames v policy))
    ++ selectorErrors policy ++ matchLabelsErrors policy.
Proof.
  unfold baseChecks, selectorErrors, matchLabelsErrors.
  assert (Hfront :
    (if 0 <? length (unrecognisedNames v policy)
     then foldl (λ el name,
                   el ++ [field.NotSupported (field.Child (field.NewPath "spec") ["plugins"])
                            name (registeredPlugins v)])
                [] (sort.Strings (unrecognisedNames v policy))
     else [])
    = (λ name, field.NotSupported ["spec"; "plugins"] name (registeredPlugins v))
        <$> sort.Strings (unrecognisedNames v policy)).
  { destruct (unrecognisedNames v policy) as [|n names] eqn:Hn; [done|].
    change (0 <? length (n :: names)) with true. cbv iota.
    by rewrite append_each_foldl. }
  rewrite Hfront. clear Hfront.
  destruct (IssuerRef (Selector (Spec policy))) as [ir|],
           (Namespace (Selector (Spec policy))) as [nsSel|]; simpl;
    rewrite ?size_positive_non_empty;
    repeat case_bool_decide; try naive_solver;
    try destruct (LabelSelectorAsSelector _);
    by rewrite ?app_nil_r, <-?app_assoc.
Qed.

(** Under a faithful oracle the names found by the loop, once sorted, are
    the unknown names. *)
Lemma unrecognisedNames_sorted (v : validator) (policy : CertificateRequestPolicy) :
  faithful_range →
  sort.Strings (unrecognisedNames v policy) = unknownNames v policy.
Proof.
  intros Hrange. unfold unknownNames. apply Strings_proper.
  rewrite unrecognisedNames_filter. by rewrite (Hrange _).
Qed.

Lemma baseChecks_spec (v : validator) (policy : CertificateRequestPolicy) :
  faithful_range →
  baseChecks v policy
  = pluginErrors v policy ++ selectorErrors policy ++ matchLabelsErrors policy.
Proof.
  intros Hrange. rewrite baseChecks_split. unfold pluginErrors.
  by rewrite unrecognisedNames_sorted.
Qed.

End base_checks_properties.

(** ** The webhooks *)

Section webhook_properties.

Context `{P : Platform}.

Lemma validateWebhooks_cons (webhook : Webhook) (rest : list Webhook) (ctx : Ctx)
    (el : field.ErrorList) (s : store) :
  validateWebhooks (webhook :: rest) ctx el s
  = match Validate webhook ctx s with
    | ((_, Some e), s1) => (([], Some e), s1)
    | ((response, None), s1) =>
        validateWebhooks rest ctx
          (if negb (approver.Allowed response) then el ++ approver.Errors response else el) s1
    end.
Proof.
  simpl. unfold bind. destruct (Validate webhook ctx s) as [[response [e|]] s1]; done.
Qed.

(** A run that ends on an error returns no list. *)
Lemma validateWebhooks_error (ws : list Webhook) (ctx : Ctx) (el el' : field.ErrorList)
    (s s' : store) (e : string) :
  validateWebhooks ws ctx el s = ((el', Some e), s') → el' = [].
Proof.
  revert el s. induction ws as [|webhook ws IH]; intros el s.
  - discriminate.
  - rewrite validateWebhooks_cons.
    destruct (Validate webhook ctx s) as [[response [e1|]] s1]; [congruence|].
    apply IH.
Qed.

(** A run that ends well returns what it was given, and more. *)
Lemma validateWebhooks_extends (ws : list Webhook) (ctx : Ctx) (el el' : field.ErrorList)
    (s s' : store) :
  validateWebhooks ws ctx el s = ((el', None), s') → ∃ rest, el' = el ++ rest.
Proof.
  revert el s. induction ws as [|webhook ws IH]; intros el s.
  - intros [= <- _]. exists []. by rewrite app_nil_r.
  - rewrite validateWebhooks_cons.
    destruct (Validate webhook ctx s) as [[response [e1|]] s1]; [discriminate|].
    intros [rest ->]%IH. destruct (negb _).
    + eexists. by rewrite <-app_assoc.
    + by eexists.
Qed.

(** Running a list of webhooks is running its front, then its back unless
    the front failed. *)
Lemma validateWebhooks_app (pre post : list Webhook) (ctx : Ctx)
    (el : field.ErrorList) (s : store) :
  validateWebhooks (pre ++ post) ctx el s
  = match validateWebhooks pre ctx el s with
    | ((_, Some e), s1) => (([], Some e), s1)
    | ((el1, None), s1) => validateWebhooks post ctx el1 s1
    end.
Proof.
  revert el s. induction pre as [|webhook pre IH]; intros el s; [done|].
  rewrite <-app_comm_cons, !validateWebhooks_cons.
  destruct (Validate webhook ctx s) as [[response [e|]] s1]; [done|].
  apply IH.
Qed.

(** When no call of a run fails, the run returns the list it was given
    followed by the errors of the responses that deny. *)
Lemma validateWebhooks_calls (ws : list Webhook) (ctx : Ctx) (el : field.ErrorList)
    (s : store) :
  Forall (λ c, failure c = None) (calls ws ctx s) →
  ∃ s', validateWebhooks ws ctx el s
        = ((el ++ deniedErrors (answer <$> calls ws ctx s), None), s').
Proof.
  revert el s. induction ws as [|webhook ws IH]; intros el s Hok.
  - exists s. simpl. unfold deniedErrors. simpl. by rewrite app_nil_r.
  - rewrite validateWebhooks_cons. simpl in Hok |- *.
    destruct (Validate webhook ctx s) as [[response [e|]] s1].
    + apply Forall_cons_1 in Hok as [[=] _].
    + apply Forall_cons_1 in Hok as [_ Hok]. rewrite fmap_cons. simpl.
      unfold deniedErrors.
      destruct (approver.Allowed response) eqn:Hallowed; simpl.
      * rewrite filter_cons_False by congruence. by apply IH.
      * rewrite filter_cons_True by done.
        destruct (IH (el ++ approver.Errors response) s1 Hok) as [s' ->].
        exists s'. rewrite fmap_cons. simpl. unfold deniedErrors.
        by rewrite <-app_assoc.
Qed.

(** The responses that deny add nothing exactly when each of them comes
    without errors. *)
Lemma deniedErrors_nil_iff (answers : list approver.WebhookValidationResponse) :
  deniedErrors answers = []
  ↔ Forall (λ response, approver.Allowed response = true
                        ∨ approver.Errors response = []) answers.
Proof.
  unfold deniedErrors. induction answers as [|response answers IH]; [done|].
  rewrite Forall_cons. destruct (approver.Allowed response) eqn:Hallowed.
  - rewrite filter_cons_False by congruence. rewrite IH. split; [auto|]. by intros [_ ?].
  - rewrite filter_cons_True by done. rewrite fmap_cons. simpl.
    rewrite app_nil, IH. split.
    + intros [? ?]. auto.
    + intros [[?|?] ?]; [discriminate|done].
Qed.

End webhook_properties.

(** ** The unknown plugin names *)

Section unknown_names_properties.

Context `{P : Platform}.

Import policyapi.

Lemma elem_of_keys {A : Type} (m : gmap string A) (name : string) :
  name ∈ (map_to_list m).*1 ↔ is_Some (m !! name).
Proof.
  rewrite list_elem_of_fmap. split.
  - intros [[k a] [-> Hka]]. apply elem_of_map_to_list in Hka. by exists a.
  - intros [a Ha]. exists (name, a). split; [done|]. by apply elem_of_map_to_list.
Qed.

Lemma elem_of_unknownNames (v : validator) (policy : CertificateRequestPolicy) (name : string) :
  name ∈ unknownNames v policy
  ↔ is_Some (Plugins (Spec policy) !! name) ∧ name ∉ registeredPlugins v.
Proof.
  unfold unknownNames. rewrite Strings_perm, list_elem_of_filter, elem_of_keys.
  tauto.
Qed.

Lemma NoDup_unknownNames (v : validator) (policy : CertificateRequestPolicy) :
  NoDup (unknownNames v policy).
Proof.
  unfold unknownNames. rewrite Strings_perm.
  apply NoDup_filter, NoDup_fst_map_to_list.
Qed.

Lemma unknownNames_nil (v : validator) (policy : CertificateRequestPolicy) :
  (∀ name, is_Some (Plugins (Spec policy) !! name) → name ∈ registeredPlugins v) →
  unknownNames v policy = [].
Proof.
  intros Hknown. apply elem_of_nil_inv. intros name.
  rewrite elem_of_unknownNames. intros [Hsome Hnot]. apply Hnot, Hknown, Hsome.
Qed.

Lemma filter_has_type_fmap {A : Type} (t : field.ErrorType) (f : A → field.Error)
    (l : list A) :
  (∀ a, field.ErrType (f a) = t) → filter (has_type t) (f <$> l) = f <$> l.
Proof.
  intros Hf. induction l as [|a l IH]; [done|]. rewrite fmap_cons.
  rewrite filter_cons_True; [by rewrite IH|].
  unfold has_type. by apply bool_decide_pack.
Qed.

Lemma filter_has_type_fmap_other {A : Type} (t : field.ErrorType) (f : A → field.Error)
    (l : list A) :
  (∀ a, field.ErrType (f a) ≠ t) → filter (has_type t) (f <$> l) = [].
Proof.
  intros Hf. induction l as [|a l IH]; [done|]. rewrite fmap_cons.
  rewrite filter_cons_False; [done|].
  unfold has_type. intros Ht%bool_decide_unpack. by apply (Hf a).
Qed.

End unknown_names_properties.

(** ** What the base checks return *)

Section base_checks_results.

Context `{P : Platform}.

Import policyapi.

Lemma filter_has_type_selectorErrors (t : field.ErrorType) (policy : CertificateRequestPolicy) :
  filter (has_type t) (selectorErrors policy)
  = if bool_decide (t = field.ErrorTypeRequired) then selectorErrors policy else [].
Proof.
  unfold selectorErrors. case_bool_decide as Hsel.
  - case_bool_decide as Ht.
    + subst t. by rewrite filter_cons_True.
    + rewrite filter_cons_False; [done|].
      unfold has_type. intros Heq%bool_decide_unpack. by apply Ht.
  - by case_bool_decide.
Qed.

Lemma filter_has_type_matchLabelsErrors (t : field.ErrorType) (policy : CertificateRequestPolicy) :
  filter (has_type t) (matchLabelsErrors policy)
  = if bool_decide (t = field.ErrorTypeInvalid) then matchLabelsErrors policy else [].
Proof.
  unfold matchLabelsErrors.
  destruct (Namespace (Selector (Spec policy))) as [nsSel|]; [|by case_bool_decide].
  case_bool_decide as Hne; [|by case_bool_decide].
  destruct (LabelSelectorAsSelector (MatchLabels nsSel)) as [err|]; [|by case_bool_decide].
  case_bool_decide as Ht.
  - subst t. by rewrite filter_cons_True.
  - rewrite filter_cons_False; [done|].
    unfold has_type. intros Heq%bool_decide_unpack. by apply Ht.
Qed.

(** C2: the plugin names declared by the policy and absent from the
    registry are exactly the members of [unknownNames], a duplicate-free
    list in increasing bytewise order that does not depend on the order in
    which the runtime walks the plugin map.  The base checks produce one
    not-supported error on [spec.plugins] per such name, listing the whole
    registry as the supported values, and no other not-supported error;
    whenever the validation returns a list, these errors are its front, in
    the order of the names. *)
Theorem C2_unknown_plugins_sorted_first (v : validator) (ctx : Ctx) (s s' : store)
    (el : field.ErrorList) :
  faithful_range →
  certificateRequestPolicy v ctx s = ((el, None), s') →
  let names := unknownNames v (obj s) in
  let errors :=
    (λ name, field.mkError field.ErrorTypeNotSupported "spec.plugins"
               (field.VString name) (field.SupportedValues (registeredPlugins v)))
      <$> names in
  (∀ name, name ∈ names
           ↔ is_Some (Plugins (Spec (obj s)) !! name) ∧ name ∉ registeredPlugins v)
  ∧ NoDup names
  ∧ Sorted string_le names
  ∧ filter (has_type field.ErrorTypeNotSupported) (baseChecks v (obj s)) = errors
  ∧ ∃ rest, el = errors ++ rest.
Proof.
  intros Hrange Hrun names errors.
  split; [apply elem_of_unknownNames|].
  split; [apply NoDup_unknownNames|].
  split; [apply Strings_sorted|].
  assert (Hbase : baseChecks v (obj s)
                  = errors ++ selectorErrors (obj s) ++ matchLabelsErrors (obj s)).
  { by rewrite baseChecks_spec. }
  split.
  - rewrite Hbase, !filter_app.
    rewrite filter_has_type_selectorErrors, filter_has_type_matchLabelsErrors.
    rewrite !bool_decide_eq_false_2 by discriminate.
    rewrite !app_nil_r. by apply filter_has_type_fmap.
  - unfold certificateRequestPolicy in Hrun.
    apply validateWebhooks_extends in Hrun as [rest ->].
    rewrite Hbase. eexists. by rewrite <-app_assoc.
Qed.

(** C4: among the errors of the base checks there is exactly one
    required-field error when the issuer reference and the namespace
    sub-selector are both absent; it sits on [spec.selector] and its detail
    is the hint that [{}] on either matches everything.  When one of the
    two is present the base checks produce no required-field error. *)
Theorem C4_selector_required (v : validator) (policy : CertificateRequestPolicy) :
  filter (has_type field.ErrorTypeRequired) (baseChecks v policy)
  = if bool_decide (IssuerRef (Selector (Spec policy)) = None
                    ∧ Namespace (Selector (Spec policy)) = None)
    then [field.mkError field.ErrorTypeRequired "spec.selector" (field.VString "")
            (field.Text "one of issuerRef or namespace must be defined, hint: `{}` on either matches everything")]
    else [].
Proof.
  rewrite baseChecks_split, !filter_app.
  rewrite filter_has_type_fmap_other by discriminate.
  rewrite filter_has_type_selectorErrors, filter_has_type_matchLabelsErrors.
  rewrite bool_decide_eq_true_2 by done.
  rewrite bool_decide_eq_false_2 by discriminate.
  by rewrite app_nil_r.
Qed.

(** C5: among the errors of the base checks there is exactly one
    invalid-field error when the namespace sub-selector is present, its
    [matchLabels] is not empty and does not compile to a selector; the
    error sits on [spec.selector.namespace.matchLabels] and carries the
    mapping and the text of the compilation error.  When the mapping
    compiles, or is empty, or the namespace sub-selector is absent, the
    base checks produce no invalid-field error. *)
Theorem C5_matchLabels_invalid (v : validator) (policy : CertificateRequestPolicy) :
  filter (has_type field.ErrorTypeInvalid) (baseChecks v policy)
  = match Namespace (Selector (Spec policy)) with
    | Some nsSel =>
        if bool_decide (MatchLabels nsSel ≠ ∅) then
          match LabelSelectorAsSelector (MatchLabels nsSel) with
          | Some err =>
              [field.mkError field.ErrorTypeInvalid "spec.selector.namespace.matchLabels"
                 (field.VStringMap (MatchLabels nsSel)) (field.Text err)]
          | None => []
          end
        else []
    | None => []
    end.
Proof.
  rewrite baseChecks_split, !filter_app.
  rewrite filter_has_type_fmap_other by discriminate.
  rewrite filter_has_type_selectorErrors, filter_has_type_matchLabelsErrors.
  rewrite bool_decide_eq_false_2 by discriminate.
  by rewrite bool_decide_eq_true_2 by done.
Qed.

(** C9: with no webhook registered the validation returns no execution
    error, leaves the store (the resource behind the pointer and the
    world) as it found it, and returns the errors of the unknown-plugin
    check, then those of the selector check, then those of the
    [matchLabels] check, each computed from the resource alone. *)
Theorem C9_no_webhooks (v : validator) (ctx : Ctx) (s : store) :
  faithful_range →
  webhooks v = [] →
  certificateRequestPolicy v ctx s
  = ((pluginErrors v (obj s) ++ selectorErrors (obj s) ++ matchLabelsErrors (obj s),
      None), s).
Proof.
  intros Hrange Hws. unfold certificateRequestPolicy.
  by rewrite Hws, baseChecks_spec.
Qed.

End base_checks_results.

(** ** What [Handle] answers *)

Section handle_results.

Context `{P : Platform}.

Import policyapi.

(** What [Handle] answers once the kind is recognised and the payload
    decoded. *)
Lemma Handle_decoded (v : validator) (ctx : Ctx) (req : admission.Request) (w : World)
    (policy : CertificateRequestPolicy) :
  admission.RequestKind req = Some policyKind →
  Decode (decoder v) req = Returns (inl policy) →
  Handle v ctx req w
  = match certificateRequestPolicy v ctx (mkStore policy w) with
    | ((_, Some e), s') =>
        Returns (admission.Errored http.StatusInternalServerError e, ext s')
    | ((el, None), s') =>
        Returns (if bool_decide (el = [])
                 then admission.Allowed "CertificateRequestPolicy validated"
                 else admission.Denied (ToAggregateError el), ext s')
    end.
Proof.
  intros Hkind Hdecode. unfold Handle. rewrite Hkind, Hdecode.
  rewrite decide_True by done.
  destruct (certificateRequestPolicy v ctx (mkStore policy w)) as [[el [e|]] s']; [done|].
  destruct el as [|e0 el]; done.
Qed.

(** C1: when the webhooks before some webhook have all returned without an
    execution error and that webhook returns one, the validation returns
    the [nil] list with that error, whatever the base checks and the
    earlier webhooks had found; the store is the one that webhook left, so
    the webhooks after it, whichever they are, did not run, and the result
    is that of the list cut after the failing webhook; [Handle] answers
    with an errored response of status 500 carrying the error. *)
Theorem C1_execution_error_aborts (v : validator) (ctx : Ctx) (pre post : list Webhook)
    (failing : Webhook) (s s1 s2 : store) (el1 : field.ErrorList)
    (response : approver.WebhookValidationResponse) (e : string) :
  webhooks v = pre ++ failing :: post →
  validateWebhooks pre ctx (baseChecks v (obj s)) s = ((el1, None), s1) →
  Validate failing ctx s1 = ((response, Some e), s2) →
  certificateRequestPolicy v ctx s = (([], Some e), s2)
  ∧ validateWebhooks (pre ++ [failing]) ctx (baseChecks v (obj s)) s = (([], Some e), s2)
  ∧ ∀ req, admission.RequestKind req = Some policyKind →
           Decode (decoder v) req = Returns (inl (obj s)) →
           Handle v ctx req (ext s) = Returns (admission.Errored 500 e, ext s2).
Proof.
  intros Hws Hpre Hfail.
  assert (Hcut : ∀ rest,
    validateWebhooks (pre ++ failing :: rest) ctx (baseChecks v (obj s)) s
    = (([], Some e), s2)).
  { intros rest. rewrite validateWebhooks_app, Hpre, validateWebhooks_cons.
    by rewrite Hfail. }
  assert (Hrun : certificateRequestPolicy v ctx s = (([], Some e), s2)).
  { unfold certificateRequestPolicy. rewrite Hws. apply Hcut. }
  split; [done|]. split; [apply Hcut|].
  intros req Hkind Hdecode.
  rewrite (Handle_decoded _ _ _ _ _ Hkind Hdecode).
  destruct s as [policy w]. simpl. by rewrite Hrun.
Qed.

(** C3, amended: for a request of the recognised kind that decodes,
    whenever the validation returns a list and no execution error,
    [Handle] answers allowed, with the confirmation message, exactly when
    the list is empty, and otherwise denied with the rendered list.  In
    particular, when every declared plugin name is registered, exactly one
    sub-selector is present, the labels of the namespace sub-selector, if
    any, compile, and on this request every webhook that is called
    returns without an execution error and allows, [Handle] answers
    allowed. *)
Theorem C3_allowed_iff_no_errors (v : validator) (ctx : Ctx) (req : admission.Request)
    (w : World) (policy : CertificateRequestPolicy) :
  admission.RequestKind req = Some policyKind →
  Decode (decoder v) req = Returns (inl policy) →
  (∀ el s', certificateRequestPolicy v ctx (mkStore policy w) = ((el, None), s') →
     Handle v ctx req w
     = Returns (if bool_decide (el = [])
                then admission.Allowed "CertificateRequestPolicy validated"
                else admission.Denied (ToAggregateError el), ext s'))
  ∧ (faithful_range →
     (∀ name, is_Some (Plugins (Spec policy) !! name) → name ∈ registeredPlugins v) →
     (is_Some (IssuerRef (Selector (Spec policy))) ∧ Namespace (Selector (Spec policy)) = None
      ∨ IssuerRef (Selector (Spec policy)) = None ∧ is_Some (Namespace (Selector (Spec policy)))) →
     (∀ nsSel, Namespace (Selector (Spec policy)) = Some nsSel →
               MatchLabels nsSel ≠ ∅ → LabelSelectorAsSelector (MatchLabels nsSel) = None) →
     Forall (λ c, failure c = None ∧ approver.Allowed (answer c) = true)
            (calls (webhooks v) ctx (mkStore policy w)) →
     ∃ w', Handle v ctx req w
           = Returns (admission.Allowed "CertificateRequestPolicy validated", w')).
Proof.
  intros Hkind Hdecode. split.
  - intros el s' Hrun. rewrite (Handle_decoded _ _ _ _ _ Hkind Hdecode). by rewrite Hrun.
  - intros Hrange Hknown Hone Hlabels Hallow.
    assert (Hbase : baseChecks v policy = []).
    { rewrite baseChecks_spec by done. unfold pluginErrors.
      rewrite unknownNames_nil by done.
      unfold selectorErrors, matchLabelsErrors.
      rewrite bool_decide_eq_false_2.
      2:{ intros [Hi Hn]. destruct Hone as [[[? Hx] _]|[_ [? Hx]]]; congruence. }
      destruct (Namespace (Selector (Spec policy))) as [nsSel|]; [|done].
      case_bool_decide as Hne; [|done]. by rewrite (Hlabels nsSel). }
    destruct (validateWebhooks_calls (webhooks v) ctx [] (mkStore policy w)) as [s' Hrun].
    { eapply Forall_impl; [exact Hallow|]. by intros c [? _]. }
    assert (Hnone : deniedErrors (answer <$> calls (webhooks v) ctx (mkStore policy w)) = []).
    { apply deniedErrors_nil_iff, Forall_fmap.
      eapply Forall_impl; [exact Hallow|]. intros c [_ ?]. by left. }
    exists (ext s'). rewrite (Handle_decoded _ _ _ _ _ Hkind Hdecode).
    unfold certificateRequestPolicy. simpl. by rewrite Hbase, Hrun, Hnone.
Qed.

(** C6: for a request whose kind is present and is not the
    CertificateRequestPolicy group, version and kind, [Handle] returns a
    denied response, not an errored one, whose message ends with the
    group, the version and the kind that were sent; the world is
    untouched. *)
Theorem C6_unrecognised_kind_denied (v : validator) (ctx : Ctx) (req : admission.Request)
    (w : World) (kind : metav1.GroupVersionKind) :
  admission.RequestKind req = Some kind →
  kind ≠ policyKind →
  Handle v ctx req w
  = Returns (admission.Denied
               ("validation request for unrecognised resource type: "
                +:+ metav1.Group kind +:+ "/" +:+ metav1.Version kind
                +:+ " " +:+ metav1.Kind kind), w).
Proof.
  intros Hkind Hne. unfold Handle. rewrite Hkind. by rewrite decide_False.
Qed.

(** C8: the code does not do what the claim says.  While the decoder
    handle is unset, a request of the recognised kind reaches [Decode] on
    the [nil] handle, for [Handle] does not test the handle as the
    readiness check does; when [Decode] panics there, [Handle] panics and
    returns no response, while the readiness check on the same validator
    returns its not-ready error. *)
Theorem C8_unset_decoder_panics (v : validator) (ctx : Ctx) (req : admission.Request)
    (w : World) :
  decoder v = None →
  admission.RequestKind req = Some policyKind →
  Decode None req = Panics →
  Handle v ctx req w = Panics ∧ check v = Some "not ready".
Proof.
  intros Hunset Hkind Hpanic. unfold Handle, check.
  rewrite Hkind, Hunset, Hpanic. by rewrite decide_True.
Qed.

(** C10: for a request of the recognised kind that decodes, on a run in
    which no webhook returns an execution error, the webhooks add to the
    list, behind the errors of the base checks, the errors of the
    responses that deny and nothing else: the errors of a response that
    allows are dropped.  [Handle] decides on the list alone: it answers
    allowed exactly when the list is empty, that is when the base checks
    found nothing and every response that denies comes without errors,
    and it answers denied, with the rendered list, otherwise. *)
Theorem C10_verdict_from_errors_only (v : validator) (ctx : Ctx) (req : admission.Request)
    (w : World) (policy : CertificateRequestPolicy) :
  admission.RequestKind req = Some policyKind →
  Decode (decoder v) req = Returns (inl policy) →
  Forall (λ c, failure c = None) (calls (webhooks v) ctx (mkStore policy w)) →
  ∃ el s',
    certificateRequestPolicy v ctx (mkStore policy w) = ((el, None), s')
    ∧ length el
      = length (baseChecks v policy)
        + length (deniedErrors (answer <$> calls (webhooks v) ctx (mkStore policy w)))
    ∧ drop (length (baseChecks v policy)) el
      = deniedErrors (answer <$> calls (webhooks v) ctx (mkStore policy w))
    ∧ (el = []
       ↔ baseChecks v policy = []
         ∧ Forall (λ response, approver.Allowed response = true
                               ∨ approver.Errors response = [])
                  (answer <$> calls (webhooks v) ctx (mkStore policy w)))
    ∧ Handle v ctx req w
      = Returns (if bool_decide (el = [])
                 then admission.Allowed "CertificateRequestPolicy validated"
                 else admission.Denied (ToAggregateError el), ext s').
Proof.
  intros Hkind Hdecode Hok.
  destruct (validateWebhooks_calls (webhooks v) ctx (baseChecks v policy)
              (mkStore policy w) Hok) as [s' Hrun].
  change (validateWebhooks (webhooks v) ctx (baseChecks v policy) (mkStore policy w))
    with (certificateRequestPolicy v ctx (mkStore policy w)) in Hrun.
  eexists _, s'. split; [exact Hrun|].
  split; [by rewrite length_app|].
  split; [by rewrite drop_app_length|].
  split.
  - rewrite app_nil, deniedErrors_nil_iff. done.
  - rewrite (Handle_decoded _ _ _ _ _ Hkind Hdecode). by rewrite Hrun.
Qed.

End handle_results.

(** ** The decoder handle over time *)

Section lifecycle_results.

Context `{P : Platform}.



(** No operation but an injection changes the validator. *)
Lemma step_self (g : guarded) (o : op) :
  ¬ is_injection o → self (step g o) = self g.
Proof.
  destruct o as [d| |ctx req]; simpl; [tauto|done|]. intros _.
  destruct (admission.RequestKind req) as [kind|]; [|done].
  case_decide; [|done]. unfold lockedDecode.
  destruct (waiting g); [done|]. by destruct (Decode (decoder (self g)) req).
Qed.



End lifecycle_results.

(** ** The properties at concrete inputs *)

Section instances.

Import policyapi sample.

Lemma platform_faithful : faithful_range (P := platform).
Proof. intros m. reflexivity. Qed.

Lemma reversed_faithful : faithful_range (P := reversed).
Proof. intros m. apply reverse_Permutation. Qed.

(** The loop meets ["b"] before ["a"] on the reversed platform, and the
    errors come out for ["a"], then ["b"], on both. *)
Example unrecognised_b_a :
  unrecognisedNames (P := reversed) withRegistryReversed pluginsBA = ["b"; "a"]
  ∧ baseChecks (P := reversed) withRegistryReversed pluginsBA
    = [notSupported "a"; notSupported "b"]
  ∧ baseChecks (P := platform) withRegistry pluginsBA
    = [notSupported "a"; notSupported "b"].
Proof. vm_compute. done. Qed.

Lemma C1_witness :
  certificateRequestPolicy (P := platform) failingSecond tt
    (mkStore (P := platform) issuerOnly [])
  = (([], Some "boom"), mkStore (P := platform) issuerOnly ["w0"; "w1"])
  ∧ validateWebhooks (P := platform) ([denying] ++ [failing]) tt
      (baseChecks (P := platform) failingSecond issuerOnly)
      (mkStore (P := platform) issuerOnly [])
    = (([], Some "boom"), mkStore (P := platform) issuerOnly ["w0"; "w1"])
  ∧ ∀ req, admission.RequestKind req = Some (policyKind (P := platform)) →
           Decode (Platform := platform) (decoder failingSecond) req
           = Returns (inl issuerOnly) →
           Handle (P := platform) failingSecond tt req []
           = Returns (admission.Errored 500 "boom", ["w0"; "w1"]).
Proof.
  apply (C1_execution_error_aborts (P := platform) failingSecond tt
           [denying] [allowing] failing
           (mkStore (P := platform) issuerOnly [])
           (mkStore (P := platform) issuerOnly ["w0"])
           (mkStore (P := platform) issuerOnly ["w0"; "w1"])
           [anError] (approver.mkResponse true []) "boom");
    vm_compute; reflexivity.
Defined.

Lemma C2_witness :
  (∀ name, name ∈ unknownNames (P := reversed) withRegistryReversed pluginsBA
           ↔ is_Some (Plugins (Spec pluginsBA) !! name) ∧ name ∉ ["allowed"])
  ∧ NoDup (unknownNames (P := reversed) withRegistryReversed pluginsBA)
  ∧ Sorted string_le (unknownNames (P := reversed) withRegistryReversed pluginsBA)
  ∧ filter (has_type field.ErrorTypeNotSupported)
      (baseChecks (P := reversed) withRegistryReversed pluginsBA)
    = notSupported <$> unknownNames (P := reversed) withRegistryReversed pluginsBA
  ∧ ∃ rest, [notSupported "a"; notSupported "b"]
            = (notSupported
                 <$> unknownNames (P := reversed) withRegistryReversed pluginsBA) ++ rest.
Proof.
  apply (C2_unknown_plugins_sorted_first (P := reversed) withRegistryReversed tt
           (mkStore (P := reversed) pluginsBA [])
           (mkStore (P := reversed) pluginsBA [])
           [notSupported "a"; notSupported "b"]).
  - apply reversed_faithful.
  - vm_compute. reflexivity.
Defined.

Lemma C3_witness :
  Handle (P := platform) pickyFirst tt (policyRequest "{}") []
  = Returns (admission.Allowed "CertificateRequestPolicy validated", ["picky"; "w2"])
  ∧ ∃ w', Handle (P := platform) pickyFirst tt (policyRequest "{}") []
          = Returns (admission.Allowed "CertificateRequestPolicy validated", w').
Proof.
  destruct (C3_allowed_iff_no_errors (P := platform) pickyFirst tt
              (policyRequest "{}") [] teamLabels eq_refl eq_refl)
    as [Hverdict Hallowed].
  split.
  - apply (Hverdict [] (mkStore (P := platform) teamLabels ["picky"; "w2"])).
    vm_compute. reflexivity.
  - apply Hallowed.
    + apply platform_faithful.
    + intros name [data Hdata]. vm_compute in Hdata. discriminate.
    + right. split; [reflexivity|by eexists].
    + intros nsSel [= <-] _. vm_compute. reflexivity.
    + vm_compute. repeat constructor.
Defined.

(** A policy that declares no plugin, has the namespace sub-selector alone
    and meets no webhook is nevertheless denied when its labels do not
    compile. *)
Lemma C3_counterexample :
  faithful_range (P := platform)
  ∧ (∀ name, is_Some (Plugins (Spec emptyLabelKey) !! name)
             → name ∈ registeredPlugins readingLabels)
  ∧ (IssuerRef (Selector (Spec emptyLabelKey)) = None
     ∧ is_Some (Namespace (Selector (Spec emptyLabelKey))))
  ∧ Forall (λ c, failure c = None ∧ approver.Allowed (answer c) = true)
           (calls (P := platform) (webhooks readingLabels) tt
                  (mkStore (P := platform) emptyLabelKey []))
  ∧ admission.RequestKind (policyRequest "{}") = Some (policyKind (P := platform))
  ∧ Decode (Platform := platform) (decoder readingLabels) (policyRequest "{}")
    = Returns (inl emptyLabelKey)
  ∧ Handle (P := platform) readingLabels tt (policyRequest "{}") []
    = Returns (admission.Denied "spec.selector.namespace.matchLabels", []).
Proof.
  split; [apply platform_faithful|].
  split; [intros name [data Hdata]; vm_compute in Hdata; discriminate|].
  split; [split; [reflexivity|by eexists]|].
  split; [constructor|].
  split; [reflexivity|]. split; [reflexivity|]. vm_compute. reflexivity.
Qed.

Lemma C6_witness :
  Handle (P := platform) failingSecond tt otherRequest []
  = Returns (admission.Denied
               "validation request for unrecognised resource type: apps/v1 Deployment", []).
Proof.
  apply (C6_unrecognised_kind_denied (P := platform) failingSecond tt otherRequest []
           (metav1.mkGVK "apps" "v1" "Deployment")).
  - reflexivity.
  - discriminate.
Defined.



Lemma C8_witness :
  Handle (P := platform) (newValidator (P := platform) [] []) tt (policyRequest "{}") []
  = Panics
  ∧ check (newValidator (P := platform) [] []) = Some "not ready".
Proof.
  apply (C8_unset_decoder_panics (P := platform) (newValidator (P := platform) [] []) tt
           (policyRequest "{}") []); reflexivity.
Defined.

Lemma C9_witness :
  certificateRequestPolicy (P := platform) withRegistry tt
    (mkStore (P := platform) noSelector [])
  = ((pluginErrors (P := platform) withRegistry noSelector
      ++ selectorErrors noSelector
      ++ matchLabelsErrors (P := platform) noSelector, None),
     mkStore (P := platform) noSelector []).
Proof.
  apply (C9_no_webhooks (P := platform) withRegistry tt
           (mkStore (P := platform) noSelector [])).
  - apply platform_faithful.
  - reflexivity.
Defined.

Lemma C10_witness :
  Handle (P := platform) pickyAndSilent tt (policyRequest "{}") []
  = Returns (admission.Allowed "CertificateRequestPolicy validated", ["picky"; "w3"; "w2"]).
Proof.
  destruct (C10_verdict_from_errors_only (P := platform) pickyAndSilent tt
              (policyRequest "{}") [] teamLabels eq_refl eq_refl)
    as (el & s' & Hrun & _ & _ & _ & Hhandle).
  { vm_compute. repeat constructor. }
  vm_compute in Hrun. injection Hrun as <- <-. exact Hhandle.
Defined.

(** With a webhook that denies and names an error, the same request is
    denied. *)
Example denied_by_a_webhook :
  Handle (P := platform) denyingOnly tt (policyRequest "{}") []
  = Returns (admission.Denied "spec.plugins.rego", ["w0"]).
Proof. vm_compute. reflexivity. Qed.

End instances.

(** * Further properties *)

(** ** The base checks, continued *)

Section base_checks_further.

Context `{P : Platform}.

Import policyapi.

(** When the base checks find nothing, each of the three checks found
    nothing. *)
Lemma baseChecks_nil_inv (v : validator) (policy : CertificateRequestPolicy) :
  faithful_range →
  baseChecks v policy = [] →
  (∀ name, is_Some (Plugins (Spec policy) !! name) → name ∈ registeredPlugins v)
  ∧ (is_Some (IssuerRef (Selector (Spec policy)))
     ∨ is_Some (Namespace (Selector (Spec policy))))
  ∧ (∀ nsSel, Namespace (Selector (Spec policy)) = Some nsSel →
              MatchLabels nsSel ≠ ∅ → LabelSelectorAsSelector (MatchLabels nsSel) = None).
Proof.
  intros Hrange. rewrite baseChecks_spec by done.
  intros [Hplugins [Hsel Hlabels]%app_eq_nil]%app_eq_nil.
  split; [|split].
  - intros name Hname. destruct (decide (name ∈ registeredPlugins v)) as [|Hnot]; [done|].
    assert (Hin : name ∈ unknownNames v policy) by (by apply elem_of_unknownNames).
    unfold pluginErrors in Hplugins. apply fmap_nil_inv in Hplugins.
    rewrite Hplugins in Hin. by apply elem_of_nil in Hin.
  - unfold selectorErrors in Hsel. case_bool_decide as Hboth; [discriminate|].
    destruct (IssuerRef (Selector (Spec policy))) as [ir|]; [left; by eexists|].
    destruct (Namespace (Selector (Spec policy))) as [ns|]; [right; by eexists|].
    by destruct Hboth.
  - intros nsSel Hns Hne. unfold matchLabelsErrors in Hlabels.
    rewrite Hns, bool_decide_eq_true_2 in Hlabels by done.
    by destruct (LabelSelectorAsSelector (MatchLabels nsSel)).
Qed.

(** X1: the inner loop over the registry answers whether the name is one of
    the registered names, by equality of strings. *)
Theorem found_iff_registered (name : string) (known : list string) :
  found name known = bool_decide (name ∈ known).
Proof.
  destruct (found name known) eqn:Hf; symmetry.
  - apply bool_decide_eq_true_2. by apply found_elem_of.
  - apply bool_decide_eq_false_2. rewrite <-found_elem_of. congruence.
Qed.

(** X2: the base checks find nothing exactly when every declared plugin
    name is registered, at least one of the two sub-selectors is present,
    and the labels of the namespace sub-selector, when it has any,
    compile. *)
Theorem baseChecks_nil_iff (v : validator) (policy : CertificateRequestPolicy) :
  faithful_range →
  baseChecks v policy = []
  ↔ (∀ name, is_Some (Plugins (Spec policy) !! name) → name ∈ registeredPlugins v)
    ∧ (is_Some (IssuerRef (Selector (Spec policy)))
       ∨ is_Some (Namespace (Selector (Spec policy))))
    ∧ (∀ nsSel, Namespace (Selector (Spec policy)) = Some nsSel →
                MatchLabels nsSel ≠ ∅ →
                LabelSelectorAsSelector (MatchLabels nsSel) = None).
Proof.
  intros Hrange. split; [by apply baseChecks_nil_inv|].
  intros (Hknown & Hsel & Hlabels).
  rewrite baseChecks_spec by done. unfold pluginErrors.
  rewrite unknownNames_nil by done.
  unfold selectorErrors, matchLabelsErrors.
  rewrite bool_decide_eq_false_2.
  2:{ intros [Hi Hn]. destruct Hsel as [[? Hx]|[? Hx]]; congruence. }
  destruct (Namespace (Selector (Spec policy))) as [nsSel|]; [|done].
  case_bool_decide as Hne; [|done]. by rewrite (Hlabels nsSel).
Qed.

(** X3: the base checks never report a missing selector and labels that do
    not compile together, so they report at most one error more than the
    policy declares plugins. *)
Theorem baseChecks_at_most_one_selector_error (v : validator)
    (policy : CertificateRequestPolicy) :
  faithful_range →
  (filter (has_type field.ErrorTypeRequired) (baseChecks v policy) = []
   ∨ filter (has_type field.ErrorTypeInvalid) (baseChecks v policy) = [])
  ∧ length (baseChecks v policy) ≤ size (Plugins (Spec policy)) + 1.
Proof.
  intros Hrange. split.
  - rewrite baseChecks_split, !filter_app.
    rewrite !filter_has_type_fmap_other by discriminate.
    rewrite !filter_has_type_selectorErrors, !filter_has_type_matchLabelsErrors.
    rewrite !bool_decide_eq_true_2 by done.
    rewrite !bool_decide_eq_false_2 by discriminate.
    unfold selectorErrors, matchLabelsErrors.
    destruct (Namespace (Selector (Spec policy))) as [nsSel|].
    + left. rewrite bool_decide_eq_false_2; [done|]. by intros [_ ?].
    + right. by rewrite app_nil_r.
  - rewrite baseChecks_spec by done. rewrite !length_app.
    assert (Hplugins : length (pluginErrors v policy) ≤ size (Plugins (Spec policy))).
    { unfold pluginErrors, unknownNames.
      rewrite length_fmap, Strings_perm.
      etrans; [apply length_filter|]. by rewrite length_fmap, length_map_to_list. }
    assert (Hrest : length (selectorErrors policy) + length (matchLabelsErrors policy) ≤ 1).
    { unfold selectorErrors, matchLabelsErrors.
      destruct (Namespace (Selector (Spec policy))) as [nsSel|].
      - rewrite bool_decide_eq_false_2 by (by intros [_ ?]).
        case_bool_decide; [|simpl; lia].
        destruct (LabelSelectorAsSelector _); simpl; lia.
      - case_bool_decide; simpl; lia. }
    lia.
Qed.

(** X4: the base checks look at the names of the declared plugins, at
    whether an issuer reference is given, and at the labels of the
    namespace sub-selector, and at nothing else of the policy: two
    policies that agree on these get the same errors. *)
Theorem baseChecks_reads (v : validator) (policy1 policy2 : CertificateRequestPolicy) :
  faithful_range →
  dom (Plugins (Spec policy1)) = dom (Plugins (Spec policy2)) →
  (is_Some (IssuerRef (Selector (Spec policy1)))
   ↔ is_Some (IssuerRef (Selector (Spec policy2)))) →
  MatchLabels <$> Namespace (Selector (Spec policy1))
  = MatchLabels <$> Namespace (Selector (Spec policy2)) →
  baseChecks v policy1 = baseChecks v policy2.
Proof.
  intros Hrange Hdom Hissuer Hns. rewrite !baseChecks_spec by done.
  f_equal; [|f_equal].
  - unfold pluginErrors, unknownNames. f_equal. apply Strings_proper.
    apply NoDup_Permutation;
      [apply NoDup_filter, NoDup_fst_map_to_list
      |apply NoDup_filter, NoDup_fst_map_to_list|].
    intros name. rewrite !list_elem_of_filter, !elem_of_keys, <-!elem_of_dom.
    by rewrite Hdom.
  - unfold selectorErrors.
    destruct (Namespace (Selector (Spec policy1))) as [ns1|],
             (Namespace (Selector (Spec policy2))) as [ns2|]; try discriminate.
    + rewrite !bool_decide_eq_false_2; [done|by intros [_ ?]..].
    + destruct (IssuerRef (Selector (Spec policy1))) as [i1|],
               (IssuerRef (Selector (Spec policy2))) as [i2|]; try done.
      * destruct Hissuer as [Hi _]. destruct Hi as [? ?]; [by eexists|discriminate].
      * destruct Hissuer as [_ Hi]. destruct Hi as [? ?]; [by eexists|discriminate].
  - unfold matchLabelsErrors.
    destruct (Namespace (Selector (Spec policy1))) as [ns1|],
             (Namespace (Selector (Spec policy2))) as [ns2|]; try discriminate; [|done].
    injection Hns as ->. done.
Qed.

(** X5: with an empty registry every declared plugin name is reported:
    the not-supported errors of the base checks are one per key of the
    plugin map, in increasing order of the keys. *)
Theorem baseChecks_empty_registry (v : validator) (policy : CertificateRequestPolicy) :
  faithful_range →
  registeredPlugins v = [] →
  filter (has_type field.ErrorTypeNotSupported) (baseChecks v policy)
  = (λ name, field.mkError field.ErrorTypeNotSupported "spec.plugins"
               (field.VString name) (field.SupportedValues []))
      <$> sort.Strings (map_to_list (Plugins (Spec policy))).*1
  ∧ length (filter (has_type field.ErrorTypeNotSupported) (baseChecks v policy))
    = size (Plugins (Spec policy)).
Proof.
  intros Hrange Hreg.
  assert (Herrors :
    filter (has_type field.ErrorTypeNotSupported) (baseChecks v policy)
    = (λ name, field.mkError field.ErrorTypeNotSupported "spec.plugins"
                 (field.VString name) (field.SupportedValues []))
        <$> sort.Strings (map_to_list (Plugins (Spec policy))).*1).
  { rewrite baseChecks_spec by done. rewrite !filter_app.
    rewrite filter_has_type_selectorErrors, filter_has_type_matchLabelsErrors.
    rewrite !bool_decide_eq_false_2 by discriminate. rewrite !app_nil_r.
    unfold pluginErrors, unknownNames. rewrite Hreg.
    rewrite filter_has_type_fmap by done.
    f_equal. f_equal. clear.
    induction ((map_to_list (Plugins (Spec policy))).*1) as [|k keys IH]; [done|].
    rewrite filter_cons_True; [by rewrite IH|]. by intros ?%elem_of_nil. }
  split; [done|].
  by rewrite Herrors, length_fmap, Strings_perm, length_fmap, length_map_to_list.
Qed.

End base_checks_further.

(** ** The webhooks, continued *)

Section webhooks_further.

Context `{P : Platform}.

Import policyapi.

(** A run that ends on an error stopped at the webhook that returned it. *)
Lemma validateWebhooks_error_inv (ws : list Webhook) (ctx : Ctx)
    (el el' : field.ErrorList) (s s' : store) (e : string) :
  validateWebhooks ws ctx el s = ((el', Some e), s') →
  ∃ pre failing post el1 s1 response,
    ws = pre ++ failing :: post
    ∧ validateWebhooks pre ctx el s = ((el1, None), s1)
    ∧ Validate failing ctx s1 = ((response, Some e), s').
Proof.
  revert el s. induction ws as [|webhook ws IH]; intros el s; [discriminate|].
  rewrite validateWebhooks_cons.
  destruct (Validate webhook ctx s) as [[response [e1|]] s1] eqn:Hcall.
  - intros [= <- <- <-]. by exists [], webhook, ws, el, s, response.
  - intros (pre & failing & post & el1 & s2 & response' & -> & Hpre & Hfail)%IH.
    exists (webhook :: pre), failing, post, el1, s2, response'.
    split; [done|]. split; [|done].
    by rewrite validateWebhooks_cons, Hcall.
Qed.

(** When no call of a run fails or writes to the resource, the resource
    comes out as it went in. *)
Lemma validateWebhooks_calls_read_only (ws : list Webhook) (ctx : Ctx)
    (el : field.ErrorList) (s : store) :
  Forall (λ c, failure c = None ∧ obj (storeAfter c) = obj (storeBefore c))
         (calls ws ctx s) →
  ∃ s', validateWebhooks ws ctx el s
        = ((el ++ deniedErrors (answer <$> calls ws ctx s), None), s')
        ∧ obj s' = obj s.
Proof.
  revert el s. induction ws as [|webhook ws IH]; intros el s Hok.
  - exists s. simpl. unfold deniedErrors. simpl. by rewrite app_nil_r.
  - rewrite validateWebhooks_cons. simpl in Hok |- *.
    destruct (Validate webhook ctx s) as [[response [e|]] s1].
    + apply Forall_cons_1 in Hok as [[[=] _] _].
    + apply Forall_cons_1 in Hok as [[_ Hobj] Hok]. simpl in Hobj.
      rewrite fmap_cons. simpl. unfold deniedErrors.
      destruct (approver.Allowed response) eqn:Hallowed; simpl.
      * rewrite filter_cons_False by congruence.
        destruct (IH el s1 Hok) as (s' & -> & Hs'). exists s'. split; [done|congruence].
      * rewrite filter_cons_True by done.
        destruct (IH (el ++ approver.Errors response) s1 Hok) as (s' & -> & Hs').
        exists s'. split; [|congruence].
        rewrite fmap_cons. simpl. unfold deniedErrors. by rewrite <-app_assoc.
Qed.

(** X7: on a run in which no webhook returns an execution error or writes
    to the resource behind the pointer, the validation returns no
    execution error and the errors of the base checks followed by the
    errors of the responses that deny, in the order in which the webhooks
    are registered; the resource is as it was. *)
Theorem certificateRequestPolicy_aggregates (v : validator) (ctx : Ctx) (s : store) :
  Forall (λ c, failure c = None ∧ obj (storeAfter c) = obj (storeBefore c))
         (calls (webhooks v) ctx s) →
  ∃ s', certificateRequestPolicy v ctx s
        = ((baseChecks v (obj s)
            ++ deniedErrors (answer <$> calls (webhooks v) ctx s), None), s')
        ∧ obj s' = obj s.
Proof. intros Hok. by apply validateWebhooks_calls_read_only. Qed.

(** X8: registering further webhooks behind the others does not change
    what the others do: the validation runs as it did before them and, if
    that run returned no execution error, goes on with the further
    webhooks from the list and the store it had reached. *)
Theorem certificateRequestPolicy_more_webhooks (v v' : validator) (ctx : Ctx)
    (more : list Webhook) (s : store) :
  registeredPlugins v' = registeredPlugins v →
  webhooks v' = webhooks v ++ more →
  certificateRequestPolicy v' ctx s
  = match certificateRequestPolicy v ctx s with
    | ((_, Some e), s1) => (([], Some e), s1)
    | ((el1, None), s1) => validateWebhooks more ctx el1 s1
    end.
Proof.
  intros Hreg Hws. unfold certificateRequestPolicy.
  rewrite Hws, validateWebhooks_app.
  assert (Hbase : baseChecks v' (obj s) = baseChecks v (obj s)).
  { unfold baseChecks, unrecognisedNames. by rewrite Hreg. }
  by rewrite Hbase.
Qed.

(** X9: an execution error returned by the validation is the error that
    one of the registered webhooks returned, unchanged; the webhooks
    before it had all returned without one; the store is the one it left;
    and the list that comes with the error is [nil]. *)
Theorem certificateRequestPolicy_error_origin (v : validator) (ctx : Ctx) (s s' : store)
    (el : field.ErrorList) (e : string) :
  certificateRequestPolicy v ctx s = ((el, Some e), s') →
  el = []
  ∧ ∃ pre failing post el1 s1 response,
      webhooks v = pre ++ failing :: post
      ∧ validateWebhooks pre ctx (baseChecks v (obj s)) s = ((el1, None), s1)
      ∧ Validate failing ctx s1 = ((response, Some e), s').
Proof.
  unfold certificateRequestPolicy. intros Hrun. split.
  - by eapply validateWebhooks_error.
  - by eapply validateWebhooks_error_inv.
Qed.

End webhooks_further.

(** ** [Handle], continued *)

Section handle_further.

Context `{P : Platform}.

Import policyapi.

(** A request that carries no kind is answered with the client error
    (status 400) saying that no resource kind was sent; the decoder is not
    called, so this holds whether or not a decoder has been injected, and
    the world is left alone. *)
Lemma Handle_missing_kind (v : validator) (ctx : Ctx) (req : admission.Request) (w : World) :
  admission.RequestKind req = None →
  Handle v ctx req w
  = Returns (admission.Errored 400 "no resource kind sent in request", w).
Proof. intros Hkind. unfold Handle. by rewrite Hkind. Qed.

(** X12: an errored response of [Handle] has status 400 or 500.  With 400
    the world is untouched and either no kind was sent or [Decode]
    returned the error of the response; with 500 the request was decoded
    and the validation returned the error of the response as its execution
    error. *)
Theorem Handle_errored_inv (v : validator) (ctx : Ctx) (req : admission.Request)
    (w w' : World) (code : Z) (err : string) :
  Handle v ctx req w = Returns (admission.Errored code err, w') →
  (code = 400%Z ∧ w' = w
   ∧ (admission.RequestKind req = None ∧ err = "no resource kind sent in request"
      ∨ admission.RequestKind req = Some policyKind
        ∧ Decode (decoder v) req = Returns (inr err)))
  ∨ (code = 500%Z
     ∧ ∃ policy s',
         admission.RequestKind req = Some policyKind
         ∧ Decode (decoder v) req = Returns (inl policy)
         ∧ certificateRequestPolicy v ctx (mkStore policy w) = (([], Some err), s')
         ∧ w' = ext s').
Proof.
  unfold Handle. destruct (admission.RequestKind req) as [kind|].
  - case_decide as Hkind; [|discriminate].
    subst kind. destruct (Decode (decoder v) req) as [[policy|derr]|]; [| |discriminate].
    + destruct (certificateRequestPolicy v ctx (mkStore policy w))
        as [[el [e|]] s'] eqn:Hrun.
      * intros [= <- <- <-]. right. split; [done|]. exists policy, s'.
        assert (el = []) as -> by (by eapply validateWebhooks_error).
        done.
      * destruct (0 <? length el); discriminate.
    + intros [= <- <- <-]. left. auto.
  - intros [= <- <- <-]. left. auto.
Qed.

(** X13: an allowed response of [Handle] carries the confirmation message
    and is given only for a request of the recognised kind that decoded to
    a policy on which the base checks found nothing: every declared plugin
    name is registered, a sub-selector is present, and the labels of the
    namespace sub-selector, when it has any, compile. *)
Theorem Handle_allowed_inv (v : validator) (ctx : Ctx) (req : admission.Request)
    (w w' : World) (message : string) :
  faithful_range →
  Handle v ctx req w = Returns (admission.Allowed message, w') →
  message = "CertificateRequestPolicy validated"
  ∧ admission.RequestKind req = Some policyKind
  ∧ ∃ policy,
      Decode (decoder v) req = Returns (inl policy)
      ∧ (∀ name, is_Some (Plugins (Spec policy) !! name) → name ∈ registeredPlugins v)
      ∧ (is_Some (IssuerRef (Selector (Spec policy)))
         ∨ is_Some (Namespace (Selector (Spec policy))))
      ∧ (∀ nsSel, Namespace (Selector (Spec policy)) = Some nsSel →
                  MatchLabels nsSel ≠ ∅ →
                  LabelSelectorAsSelector (MatchLabels nsSel) = None).
Proof.
  intros Hrange. unfold Handle. destruct (admission.RequestKind req) as [kind|];
    [|discriminate].
  case_decide as Hkind; [|discriminate].
  subst kind. destruct (Decode (decoder v) req) as [[policy|derr]|]; [|discriminate..].
  destruct (certificateRequestPolicy v ctx (mkStore policy w)) as [[el [e|]] s'] eqn:Hrun;
    [discriminate|].
  destruct el as [|e0 el]; [|discriminate].
  intros [= <- <-]. split; [done|]. split; [done|]. exists policy. split; [done|].
  apply baseChecks_nil_inv; [done|].
  unfold certificateRequestPolicy in Hrun.
  apply validateWebhooks_extends in Hrun as [rest Hrest]. simpl in Hrest.
  symmetry in Hrest. by apply app_eq_nil in Hrest as [? _].
Qed.

(** X14: a denied response of [Handle] either names the kind of a request
    of another kind, the world being untouched, or renders the list that
    the validation returned for the decoded policy, and that list is not
    empty. *)
Theorem Handle_denied_inv (v : validator) (ctx : Ctx) (req : admission.Request)
    (w w' : World) (message : string) :
  Handle v ctx req w = Returns (admission.Denied message, w') →
  (∃ kind, admission.RequestKind req = Some kind ∧ kind ≠ policyKind ∧ w' = w
           ∧ message = "validation request for unrecognised resource type: "
                       +:+ metav1.Group kind +:+ "/" +:+ metav1.Version kind
                       +:+ " " +:+ metav1.Kind kind)
  ∨ (∃ policy el s',
       admission.RequestKind req = Some policyKind
       ∧ Decode (decoder v) req = Returns (inl policy)
       ∧ certificateRequestPolicy v ctx (mkStore policy w) = ((el, None), s')
       ∧ el ≠ [] ∧ message = ToAggregateError el ∧ w' = ext s').
Proof.
  unfold Handle. destruct (admission.RequestKind req) as [kind|]; [|discriminate].
  case_decide as Hkind.
  - subst kind. destruct (Decode (decoder v) req) as [[policy|derr]|]; [|discriminate..].
    destruct (certificateRequestPolicy v ctx (mkStore policy w)) as [[el [e|]] s'] eqn:Hrun;
      [discriminate|].
    destruct el as [|e0 el]; [discriminate|].
    intros [= <- <-]. right. by exists policy, (e0 :: el), s'.
  - intros [= <- <-]. left. by exists kind.
Qed.

End handle_further.

(** ** The decoder handle, continued *)

Section lifecycle_further.

Context `{P : Platform}.

(** While a read lock is held, the validator does not change and the read
    lock stays held. *)
Lemma run_held (g : guarded) (ops : list op) :
  0 < readers g →
  self (run g ops) = self g ∧ 0 < readers (run g ops)
  ∧ (waiting g = true → waiting (run g ops) = true)
  ∧ (Exists is_injection ops → waiting (run g ops) = true).
Proof.
  revert g. induction ops as [|o ops IH]; intros g Hheld.
  - split; [done|]. split; [done|]. split; [done|]. by intros ?%Exists_nil.
  - assert (Hstep : self (step g o) = self g ∧ 0 < readers (step g o)
                    ∧ (waiting g = true → waiting (step g o) = true)
                    ∧ (is_injection o → waiting (step g o) = true)).
    { destruct o as [d| |ctx req]; simpl.
      - unfold lockedInjectDecoder. destruct (waiting g) eqn:Hw; simpl.
        + by rewrite Hw.
        + destruct (readers g) as [|n] eqn:Hn; [lia|]. simpl. rewrite ?Hn.
          repeat split; auto; lia.
      - repeat split; auto; tauto.
      - destruct (admission.RequestKind req) as [kind|]; [|repeat split; auto; tauto].
        case_decide; [|repeat split; auto; tauto].
        unfold lockedDecode. destruct (waiting g) eqn:Hw; simpl.
        + rewrite Hw. repeat split; auto; tauto.
        + destruct (Decode (decoder (self g)) req); simpl; rewrite ?Hw;
            repeat split; auto; try tauto; try lia; try congruence. }
    destruct Hstep as (Hself & Hreaders & Hwait & Hinj).
    destruct (IH (step g o) Hreaders) as (IHself & IHreaders & IHwait & IHinj).
    simpl. split; [congruence|]. split; [done|]. split; [auto|].
    intros [Ho|Hops]%Exists_cons; auto.
Qed.

(** X16: an injection issued while the lock is free returns, and from then
    until the next injection the decoder handle holds what it passed, be
    it a decoder or [nil], whatever was injected before; the readiness
    check returns and answers for that value alone. *)
Theorem run_last_injection (g : guarded) (after : list op) (d : option Decoder) :
  waiting g = false →
  readers g = 0 →
  Forall (λ o, ¬ is_injection o) after →
  (lockedInjectDecoder g d).2 = Some None
  ∧ decoder (self (run g (OpInjectDecoder d :: after))) = d
  ∧ lockedCheck (run g (OpInjectDecoder d :: after))
    = Some (match d with Some _ => None | None => Some "not ready" end).
Proof.
  intros Hwait Hfree Hafter.
  assert (Hinject : lockedInjectDecoder g d
                    = (mkGuarded (mkValidator (registeredPlugins (self g))
                                              (webhooks (self g)) d) 0 false, Some None)).
  { unfold lockedInjectDecoder. by rewrite Hwait, Hfree. }
  split; [by rewrite Hinject|].
  simpl. rewrite Hinject. simpl.
  assert (Hkeep : ∀ ops g0, Forall (λ o, ¬ is_injection o) ops →
                            self (run g0 ops) = self g0 ∧ waiting (run g0 ops) = waiting g0).
  { clear. induction ops as [|o ops IH]; intros g0 Hops; [done|].
    apply Forall_cons_1 in Hops as [Ho Hops]. simpl.
    destruct (IH (step g0 o) Hops) as [-> ->]. split; [by apply step_self|].
    destruct o as [d| |ctx req]; simpl in *; [tauto|done|].
    destruct (admission.RequestKind req) as [kind|]; [|done].
    case_decide; [|done]. unfold lockedDecode.
    destruct (waiting g0) eqn:Hw; [done|].
    by destruct (Decode (decoder (self g0)) req). }
  destruct (Hkeep after (mkGuarded (mkValidator (registeredPlugins (self g))
                                                (webhooks (self g)) d) 0 false) Hafter)
    as [Hself Hw].
  unfold lockedCheck, check. rewrite Hw, Hself. simpl. by destruct d.
Qed.

(** X17: a [Handle] whose [Decode] panics leaves the read lock held, for
    the unlock of line 67 is not reached.  From then on every injection
    blocks, so the decoder handle never changes again; and once an
    injection has been issued and waits for the lock, every readiness
    check blocks behind it. *)
Theorem Handle_panic_holds_lock (g : guarded) (ctx : Ctx) (req : admission.Request)
    (ops : list op) :
  waiting g = false →
  admission.RequestKind req = Some policyKind →
  Decode (decoder (self g)) req = Panics →
  readers (step g (OpHandle ctx req)) = S (readers g)
  ∧ self (run g (OpHandle ctx req :: ops)) = self g
  ∧ (∀ d, (lockedInjectDecoder (run g (OpHandle ctx req :: ops)) d).2 = None)
  ∧ (Exists is_injection ops → lockedCheck (run g (OpHandle ctx req :: ops)) = None).
Proof.
  intros Hwait Hkind Hpanic.
  assert (Hstep : step g (OpHandle ctx req) = mkGuarded (self g) (S (readers g)) false).
  { simpl. rewrite Hkind, decide_True by done.
    unfold lockedDecode. by rewrite Hwait, Hpanic. }
  split; [by rewrite Hstep|].
  simpl run. fold (step g (OpHandle ctx req)). rewrite Hstep.
  destruct (run_held (mkGuarded (self g) (S (readers g)) false) ops)
    as (Hself & Hreaders & _ & Hinj); [simpl; lia|].
  set (g' := run (mkGuarded (self g) (S (readers g)) false) ops) in *.
  split; [done|]. split.
  - intros d. unfold lockedInjectDecoder.
    destruct (waiting g'); [done|].
    destruct (readers g') as [|n] eqn:Hn; [lia|]. reflexivity.
  - intros Hops. unfold lockedCheck. by rewrite (Hinj Hops).
Qed.

End lifecycle_further.

(** ** The further properties at concrete inputs *)

Section further_instances.

Import policyapi sample.

Lemma baseChecks_nil_iff_witness :
  baseChecks (P := platform) withRegistry issuerOnly = []
  ↔ (∀ name, is_Some (Plugins (Spec issuerOnly) !! name) → name ∈ ["allowed"])
    ∧ (is_Some (IssuerRef (Selector (Spec issuerOnly)))
       ∨ is_Some (Namespace (Selector (Spec issuerOnly))))
    ∧ (∀ nsSel, Namespace (Selector (Spec issuerOnly)) = Some nsSel →
                MatchLabels nsSel ≠ ∅ → labelSelector (MatchLabels nsSel) = None).
Proof.
  apply (baseChecks_nil_iff (P := platform) withRegistry issuerOnly).
  apply platform_faithful.
Defined.

Lemma baseChecks_at_most_one_selector_error_witness :
  (filter (has_type field.ErrorTypeRequired)
     (baseChecks (P := platform) withRegistry pluginsBA) = []
   ∨ filter (has_type field.ErrorTypeInvalid)
       (baseChecks (P := platform) withRegistry pluginsBA) = [])
  ∧ length (baseChecks (P := platform) withRegistry pluginsBA)
    ≤ size (Plugins (Spec pluginsBA)) + 1.
Proof.
  apply (baseChecks_at_most_one_selector_error (P := platform) withRegistry pluginsBA).
  apply platform_faithful.
Defined.

Lemma baseChecks_reads_witness :
  baseChecks (P := platform) withRegistry pluginsBA
  = baseChecks (P := platform) withRegistry pluginsBAConfigured.
Proof.
  apply (baseChecks_reads (P := platform) withRegistry pluginsBA pluginsBAConfigured).
  - apply platform_faithful.
  - vm_compute. reflexivity.
  - split; intros _; by eexists.
  - reflexivity.
Defined.

Lemma baseChecks_empty_registry_witness :
  filter (has_type field.ErrorTypeNotSupported)
    (baseChecks (P := platform) readingLabels pluginsBA)
  = (λ name, field.mkError field.ErrorTypeNotSupported "spec.plugins"
               (field.VString name) (field.SupportedValues []))
      <$> sort.Strings (map_to_list (Plugins (Spec pluginsBA))).*1
  ∧ length (filter (has_type field.ErrorTypeNotSupported)
              (baseChecks (P := platform) readingLabels pluginsBA))
    = size (Plugins (Spec pluginsBA)).
Proof.
  apply (baseChecks_empty_registry (P := platform) readingLabels pluginsBA).
  - apply platform_faithful.
  - reflexivity.
Defined.

Lemma certificateRequestPolicy_aggregates_witness :
  ∃ s', certificateRequestPolicy (P := platform) denyingTwice tt
          (mkStore (P := platform) noSelector [])
        = ((baseChecks (P := platform) denyingTwice noSelector
            ++ deniedErrors
                 (answer <$> calls (P := platform) (webhooks denyingTwice) tt
                               (mkStore (P := platform) noSelector [])), None), s')
        ∧ obj s' = noSelector.
Proof.
  apply (certificateRequestPolicy_aggregates (P := platform) denyingTwice tt
           (mkStore (P := platform) noSelector [])).
  vm_compute. repeat constructor.
Defined.

(** The list of the run above: the base error, then the two denials. *)
Example aggregated_in_order :
  (certificateRequestPolicy (P := platform) denyingTwice tt
     (mkStore (P := platform) noSelector [])).1
  = ([required; anError; anError], None).
Proof. vm_compute. reflexivity. Qed.

Lemma certificateRequestPolicy_more_webhooks_witness :
  certificateRequestPolicy (P := platform) failingSecond tt
    (mkStore (P := platform) issuerOnly [])
  = match certificateRequestPolicy (P := platform) denyingOnly tt
            (mkStore (P := platform) issuerOnly []) with
    | ((_, Some e), s1) => (([], Some e), s1)
    | ((el1, None), s1) => validateWebhooks (P := platform) [failing; allowing] tt el1 s1
    end.
Proof.
  apply (certificateRequestPolicy_more_webhooks (P := platform) denyingOnly failingSecond
           tt [failing; allowing] (mkStore (P := platform) issuerOnly []));
    reflexivity.
Defined.

Lemma certificateRequestPolicy_error_origin_witness :
  @nil field.Error = []
  ∧ ∃ pre failing post el1 s1 response,
      webhooks failingSecond = pre ++ failing :: post
      ∧ validateWebhooks (P := platform) pre tt
          (baseChecks (P := platform) failingSecond issuerOnly)
          (mkStore (P := platform) issuerOnly [])
        = ((el1, None), s1)
      ∧ Validate failing tt s1
        = ((response, Some "boom"), mkStore (P := platform) issuerOnly ["w0"; "w1"]).
Proof.
  apply (certificateRequestPolicy_error_origin (P := platform) failingSecond tt
           (mkStore (P := platform) issuerOnly [])
           (mkStore (P := platform) issuerOnly ["w0"; "w1"]) [] "boom").
  vm_compute. reflexivity.
Defined.

Lemma Handle_errored_inv_witness :
  (500%Z = 400%Z ∧ ["w0"; "w1"] = []
   ∧ (admission.RequestKind (policyRequest "{}") = None
      ∧ "boom" = "no resource kind sent in request"
      ∨ admission.RequestKind (policyRequest "{}") = Some (policyKind (P := platform))
        ∧ Decode (Platform := platform) (decoder failingSecond) (policyRequest "{}")
          = Returns (inr "boom")))
  ∨ (500%Z = 500%Z
     ∧ ∃ policy s',
         admission.RequestKind (policyRequest "{}") = Some (policyKind (P := platform))
         ∧ Decode (Platform := platform) (decoder failingSecond) (policyRequest "{}")
           = Returns (inl policy)
         ∧ certificateRequestPolicy (P := platform) failingSecond tt
             (mkStore (P := platform) policy [])
           = (([], Some "boom"), s')
         ∧ ["w0"; "w1"] = ext s').
Proof.
  apply (Handle_errored_inv (P := platform) failingSecond tt (policyRequest "{}")
           [] ["w0"; "w1"] 500 "boom").
  vm_compute. reflexivity.
Defined.

Lemma Handle_allowed_inv_witness :
  "CertificateRequestPolicy validated" = "CertificateRequestPolicy validated"
  ∧ admission.RequestKind (policyRequest "{}") = Some (policyKind (P := platform))
  ∧ ∃ policy,
      Decode (Platform := platform) (decoder allowingOnly) (policyRequest "{}")
      = Returns (inl policy)
      ∧ (∀ name, is_Some (Plugins (Spec policy) !! name)
                 → name ∈ registeredPlugins allowingOnly)
      ∧ (is_Some (IssuerRef (Selector (Spec policy)))
         ∨ is_Some (Namespace (Selector (Spec policy))))
      ∧ (∀ nsSel, Namespace (Selector (Spec policy)) = Some nsSel →
                  MatchLabels nsSel ≠ ∅ →
                  labelSelector (MatchLabels nsSel) = None).
Proof.
  apply (Handle_allowed_inv (P := platform) allowingOnly tt (policyRequest "{}")
           [] ["w2"] "CertificateRequestPolicy validated").
  - apply platform_faithful.
  - vm_compute. reflexivity.
Defined.

Lemma Handle_denied_inv_witness :
  (∃ kind, admission.RequestKind (policyRequest "{}") = Some kind
           ∧ kind ≠ policyKind (P := platform) ∧ @nil string = []
           ∧ "spec.selector.namespace.matchLabels"
             = "validation request for unrecognised resource type: "
               +:+ metav1.Group kind +:+ "/" +:+ metav1.Version kind
               +:+ " " +:+ metav1.Kind kind)
  ∨ (∃ policy el s',
       admission.RequestKind (policyRequest "{}") = Some (policyKind (P := platform))
       ∧ Decode (Platform := platform) (decoder readingLabels) (policyRequest "{}")
         = Returns (inl policy)
       ∧ certificateRequestPolicy (P := platform) readingLabels tt
           (mkStore (P := platform) policy [])
         = ((el, None), s')
       ∧ el ≠ [] ∧ "spec.selector.namespace.matchLabels" = render el ∧ [] = ext s').
Proof.
  apply (Handle_denied_inv (P := platform) readingLabels tt (policyRequest "{}")
           [] [] "spec.selector.namespace.matchLabels").
  vm_compute. reflexivity.
Defined.

Lemma run_last_injection_witness :
  (lockedInjectDecoder
     (run (fresh (newValidator (P := platform) ["allowed"] [allowing]))
          [OpInjectDecoder (P := platform) (Some (reads issuerOnly)); OpCheck])
     None).2
  = Some None
  ∧ decoder (self (run (run (fresh (newValidator (P := platform) ["allowed"] [allowing]))
                            [OpInjectDecoder (P := platform) (Some (reads issuerOnly)); OpCheck])
                       (OpInjectDecoder (P := platform) None
                        :: [OpCheck; OpHandle (P := platform) tt (policyRequest "{}")])))
    = None
  ∧ lockedCheck (run (run (fresh (newValidator (P := platform) ["allowed"] [allowing]))
                          [OpInjectDecoder (P := platform) (Some (reads issuerOnly)); OpCheck])
                     (OpInjectDecoder (P := platform) None
                      :: [OpCheck; OpHandle (P := platform) tt (policyRequest "{}")]))
    = Some (Some "not ready").
Proof.
  apply (run_last_injection (P := platform)
           (run (fresh (newValidator (P := platform) ["allowed"] [allowing]))
                [OpInjectDecoder (P := platform) (Some (reads issuerOnly)); OpCheck])
           [OpCheck; OpHandle (P := platform) tt (policyRequest "{}")]
           None).
  - reflexivity.
  - reflexivity.
  - repeat constructor; simpl; tauto.
Defined.

Lemma Handle_panic_holds_lock_witness :
  readers (step (fresh (newValidator (P := platform) [] []))
                (OpHandle (P := platform) tt (policyRequest "{}")))
  = 1
  ∧ self (run (fresh (newValidator (P := platform) [] []))
              (OpHandle (P := platform) tt (policyRequest "{}")
               :: [OpInjectDecoder (P := platform) (Some (reads issuerOnly)); OpCheck]))
    = newValidator (P := platform) [] []
  ∧ (∀ d, (lockedInjectDecoder
             (run (fresh (newValidator (P := platform) [] []))
                  (OpHandle (P := platform) tt (policyRequest "{}")
                   :: [OpInjectDecoder (P := platform) (Some (reads issuerOnly)); OpCheck]))
             d).2
          = None)
  ∧ (Exists is_injection
       [OpInjectDecoder (P := platform) (Some (reads issuerOnly)); OpCheck] →
     lockedCheck (run (fresh (newValidator (P := platform) [] []))
                      (OpHandle (P := platform) tt (policyRequest "{}")
                       :: [OpInjectDecoder (P := platform) (Some (reads issuerOnly));
                           OpCheck]))
     = None).
Proof.
  apply (Handle_panic_holds_lock (P := platform)
           (fresh (newValidator (P := platform) [] [])) tt (policyRequest "{}")
           [OpInjectDecoder (P := platform) (Some (reads issuerOnly)); OpCheck]);
    reflexivity.
Defined.

(** The run above: the injection that follows the panic never returns,
    the handle stays unset and the readiness check blocks. *)
Example injection_blocked_after_panic :
  decoder (self (run (fresh (newValidator (P := platform) [] []))
                     [OpHandle (P := platform) tt (policyRequest "{}");
                      OpInjectDecoder (P := platform) (Some (reads issuerOnly))]))
  = None
  ∧ lockedCheck (run (fresh (newValidator (P := platform) [] []))
                     [OpHandle (P := platform) tt (policyRequest "{}");
                      OpInjectDecoder (P := platform) (Some (reads issuerOnly))])
    = None.
Proof. split; reflexivity. Qed.

End further_instances.
